(** * js-peer-id: the peer identity of [src/index.js]

    A peer id is the sha2-256 multihash of the protobuf record that wraps
    the DER form of an RSA public key.  This development embeds
    [src/index.js] together with the parts of its runtime that the module
    leans on: Node's [Buffer] text codecs (hex, base64), the base58 codec
    of [bs58], and the protobuf wire format of the key record.  The RSA and
    ASN.1 provider ([node-forge]) and the multihash function
    ([multihashing]) stay abstract: they are the fields of the [Platform]
    that every factory function takes. *)

From Stdlib Require Import NArith ZArith List Bool Arith Lia.
From Stdlib.Strings Require Import String Ascii Byte.
Import ListNotations.

Local Open Scope N_scope.

(** [lia] is to know division and remainder by a constant. *)
Ltac Zify.zify_post_hook ::= Z.to_euclidean_division_equations.

(** ** Bytes and results *)

(** A Node [Buffer] is a sequence of octets. *)
Definition bytes := list byte.

(** Octet of a number, keeping the low eight bits as a typed array does. *)
Definition byte_of_N (n : N) : byte :=
  match Byte.of_N (n mod 256) with
  | Some b => b
  | None => x00
  end.

(** The exceptions that can escape the module.  None is caught in
    [src/index.js], so each one aborts the factory call that met it. *)
Inductive error : Set :=
| TypeError      (* the runtime refuses a value: [null.toString], [new Buffer(null)] *)
| EncodingError  (* a text codec refuses its input *)
| FormatError    (* the key record decoder refuses its input *)
| DecodeError.   (* the ASN.1 / RSA provider refuses its input *)

Inductive result (A : Type) : Type :=
| Ok (a : A)
| Err (e : error).
Arguments Ok {A} a.
Arguments Err {A} e.

Definition bind {A B : Type} (c : result A) (k : A -> result B) : result B :=
  match c with
  | Ok a => k a
  | Err e => Err e
  end.

Notation "x <- c ;; k" := (bind c (fun x => k))
  (at level 61, c at next level, right associativity).

(** Values that reach the key arguments of the module: a key is handed
    over as a [Buffer] or as a string, or is absent. *)
Inductive jsval : Type :=
| JUndefined
| JNull
| JStr (s : string)
| JBuf (b : bytes).

(** ** Hexadecimal text, as [Buffer] reads and writes it *)
Module Hex.

Definition alphabet : list ascii := list_ascii_of_string "0123456789abcdef".

Definition digit (n : N) : ascii := nth (N.to_nat n) alphabet "0"%char.

(** [buf.toString('hex')]: two lower-case digits per octet. *)
Definition encode_list (b : bytes) : list ascii :=
  flat_map (fun x => [digit (Byte.to_N x / 16); digit (Byte.to_N x mod 16)]) b.

Definition encode (b : bytes) : string := string_of_list_ascii (encode_list b).

(** Value of a hex digit of either case, [None] for any other character. *)
Definition hex2bin (c : ascii) : option N :=
  let n := N_of_ascii c in
  if (48 <=? n) && (n <=? 57) then Some (n - 48)
  else if (65 <=? n) && (n <=? 70) then Some (n - 55)
  else if (97 <=? n) && (n <=? 102) then Some (n - 87)
  else None.

(** The decoding loop of [Buffer]: whole pairs are read from the left and
    reading stops at the first pair that holds a character that is not a
    hex digit; a trailing single character is not read. *)
Fixpoint decode_list (s : list ascii) : bytes :=
  match s with
  | a :: b :: rest =>
      match hex2bin a, hex2bin b with
      | Some x, Some y => byte_of_N (x * 16 + y) :: decode_list rest
      | _, _ => []
      end
  | _ => []
  end.

Definition decode_prefix (s : string) : bytes := decode_list (list_ascii_of_string s).

Definition is_digit (c : ascii) : bool :=
  match hex2bin c with Some _ => true | None => false end.

End Hex.

(** ** Base64 text, as [Buffer] reads and writes it *)
Module Base64.

Definition alphabet : list ascii :=
  list_ascii_of_string "ABCDEFGHIJKLMNOPQRSTUVWXYZabcdefghijklmnopqrstuvwxyz0123456789+/".

Definition char (n : N) : ascii := nth (N.to_nat n) alphabet "A"%char.

Definition pad : ascii := "="%char.

(** [buf.toString('base64')]: three octets give four characters, and the
    last group is padded with [=]. *)
Fixpoint encode_list (b : bytes) : list ascii :=
  match b with
  | [] => []
  | [x] =>
      let x := Byte.to_N x in
      [char (x / 4); char ((x mod 4) * 16); pad; pad]
  | [x; y] =>
      let x := Byte.to_N x in
      let y := Byte.to_N y in
      [char (x / 4); char ((x mod 4) * 16 + y / 16); char ((y mod 16) * 4); pad]
  | x :: y :: z :: rest =>
      let x := Byte.to_N x in
      let y := Byte.to_N y in
      let z := Byte.to_N z in
      char (x / 4) :: char ((x mod 4) * 16 + y / 16)
        :: char ((y mod 16) * 4 + z / 64) :: char (z mod 64)
        :: encode_list rest
  end.

Definition encode (b : bytes) : string := string_of_list_ascii (encode_list b).

(** Value of a base64 character; the URL-safe [-] and [_] are read as
    [+] and [/]. *)
Definition unbase64 (c : ascii) : option N :=
  let n := N_of_ascii c in
  if (65 <=? n) && (n <=? 90) then Some (n - 65)
  else if (97 <=? n) && (n <=? 122) then Some (n - 71)
  else if (48 <=? n) && (n <=? 57) then Some (n + 4)
  else if (n =? 43) || (n =? 45) then Some 62
  else if (n =? 47) || (n =? 95) then Some 63
  else None.

(** The sextets of a text: characters outside the alphabet are passed
    over, the first [=] ends the text. *)
Fixpoint sextets (s : list ascii) : list N :=
  match s with
  | [] => []
  | c :: rest =>
      if Ascii.eqb c pad then []
      else match unbase64 c with
           | Some v => v :: sextets rest
           | None => sextets rest
           end
  end.

(** Four sextets give three octets; a last group of two or three gives
    one or two octets, a single left-over sextet gives none. *)
Fixpoint unpack (v : list N) : bytes :=
  match v with
  | a :: b :: c :: d :: rest =>
      byte_of_N (a * 4 + b / 16) :: byte_of_N ((b mod 16) * 16 + c / 4)
        :: byte_of_N ((c mod 4) * 64 + d) :: unpack rest
  | [a; b; c] => [byte_of_N (a * 4 + b / 16); byte_of_N ((b mod 16) * 16 + c / 4)]
  | [a; b] => [byte_of_N (a * 4 + b / 16)]
  | _ => []
  end.

(** [new Buffer(str, 'base64')]: never refuses a string. *)
Definition decode (s : string) : bytes := unpack (sextets (list_ascii_of_string s)).

End Base64.

(** ** Base58 text, as [bs58] reads and writes it *)

(** Positional notation in a radix, most significant digit first. *)
Module Radix.

Definition value (base : N) (ds : list N) : N :=
  fold_left (fun acc d => acc * base + d) ds 0.

Fixpoint digits_fuel (base : N) (fuel : nat) (n : N) (acc : list N) : list N :=
  match fuel with
  | O => acc
  | S fuel =>
      if n =? 0 then acc
      else digits_fuel base fuel (n / base) (n mod base :: acc)
  end.

(** The digits of [n], none for zero.  A number has no more digits than
    bits, so the fuel is never what ends the loop. *)
Definition digits (base : N) (n : N) : list N :=
  digits_fuel base (N.to_nat (N.size n)) n [].

(** Number of leading zero digits. *)
Fixpoint leading_zeros (ds : list N) : nat :=
  match ds with
  | d :: rest => if d =? 0 then S (leading_zeros rest) else O
  | [] => O
  end.

(** Digits in range with no leading zero: the notation of a number. *)
Definition canonical (base : N) (ds : list N) : Prop :=
  Forall (fun d => d < base) ds /\ leading_zeros ds = O.

End Radix.

Module Base58.

Definition alphabet : list ascii :=
  list_ascii_of_string "123456789ABCDEFGHJKLMNPQRSTUVWXYZabcdefghijkmnopqrstuvwxyz".

Definition char (n : N) : ascii := nth (N.to_nat n) alphabet "1"%char.

Fixpoint index_from (c : ascii) (l : list ascii) (i : N) : option N :=
  match l with
  | [] => None
  | a :: rest => if Ascii.eqb c a then Some i else index_from c rest (i + 1)
  end.

(** The [ALPHABET_MAP] lookup of the decoder. *)
Definition index (c : ascii) : option N := index_from c alphabet 0.

(** Each leading zero octet is written as the digit zero (the character
    [1]); the octets that follow are one big-endian number written in
    radix 58. *)
Definition encode_digits (b : list N) : list N :=
  repeat 0 (Radix.leading_zeros b) ++ Radix.digits 58 (Radix.value 256 b).

Definition encode (b : bytes) : string :=
  string_of_list_ascii (map char (encode_digits (map Byte.to_N b))).

(** The digits of a text, [None] when a character is outside the
    alphabet. *)
Fixpoint indices (s : list ascii) : option (list N) :=
  match s with
  | [] => Some []
  | c :: rest =>
      match index c, indices rest with
      | Some d, Some ds => Some (d :: ds)
      | _, _ => None
      end
  end.

Definition decode_digits (ds : list N) : list N :=
  repeat 0 (Radix.leading_zeros ds) ++ Radix.digits 256 (Radix.value 58 ds).

(** [base58.decode(str)]: throws on a character outside the alphabet. *)
Definition decode (s : string) : result bytes :=
  match indices (list_ascii_of_string s) with
  | None => Err EncodingError
  | Some ds => Ok (map byte_of_N (decode_digits ds))
  end.

End Base58.

(** ** The key record and its wire form *)

(** Base-128 varints of the protobuf wire format, low group first. *)
Module Varint.

Fixpoint encode_fuel (fuel : nat) (n : N) : bytes :=
  match fuel with
  | O => [byte_of_N n]
  | S fuel =>
      if n <? 128 then [byte_of_N n]
      else byte_of_N (n mod 128 + 128) :: encode_fuel fuel (n / 128)
  end.

(** Each step takes seven bits away, so the bit size is fuel enough. *)
Definition encode (n : N) : bytes := encode_fuel (N.to_nat (N.size n)) n.

(** Reads one varint and returns it with the bytes that follow; [None]
    when the input ends before the varint does. *)
Fixpoint decode (b : bytes) : option (N * bytes) :=
  match b with
  | [] => None
  | x :: rest =>
      let v := Byte.to_N x in
      if v <? 128 then Some (v, rest)
      else match decode rest with
           | Some (hi, rest') => Some (v - 128 + 128 * hi, rest')
           | None => None
           end
  end.

End Varint.

Module pbCrypto.

(** Modelled from the spec: [protos/crypto.proto] is not among the
    sources.  The spec gives the wire schema of a key record as a
    two-field tagged binary message: [Type], a small integer enum whose
    only value is [RSA = 0], and [Data], a variable-length byte field.
    The fields are numbered in that order. *)
Inductive KeyType : Set := RSA.

Definition KeyType_value (t : KeyType) : N :=
  match t with RSA => 0 end.

Definition KeyType_of (v : N) : option KeyType :=
  if v =? 0 then Some RSA else None.

Record KeyRecord : Type := { Type_ : KeyType; Data : bytes }.

Definition tag_Type : N := 1.
Definition tag_Data : N := 2.
Definition wire_varint : N := 0.
Definition wire_bytes : N := 2.

(** The key that opens a field: field number and wire type. *)
Definition field_key (tag wire : N) : N := tag * 8 + wire.

(** Modelled from the spec: the encoder that the protobuf runtime compiles
    from the schema.  A record is its [Type] as a varint field followed
    by its [Data] as a length-prefixed field. *)
Definition encode_message (r : KeyRecord) : bytes :=
  Varint.encode (field_key tag_Type wire_varint)
    ++ Varint.encode (KeyType_value (Type_ r))
    ++ Varint.encode (field_key tag_Data wire_bytes)
    ++ Varint.encode (N.of_nat (List.length (Data r)))
    ++ Data r.

(** [skip] of the protobuf runtime: passes over the value of a field
    that the schema does not name, going by its wire type.  A value that
    runs past the end of the input is passed over all the same; groups
    and the wire types without a meaning are refused. *)
Definition skip (wire : N) (buf : bytes) : result bytes :=
  if wire =? 0 then
    match Varint.decode buf with
    | Some (_, rest) => Ok rest
    | None => Err FormatError
    end
  else if wire =? 1 then Ok (skipn 8 buf)
  else if wire =? 2 then
    match Varint.decode buf with
    | Some (len, rest) => Ok (skipn (N.to_nat len) rest)
    | None => Err FormatError
    end
  else if wire =? 5 then Ok (skipn 4 buf)
  else Err FormatError.

(** The decoder that the protobuf runtime ([protocol-buffers]) compiles
    from the schema.  It reads key after key until the input is used up.
    The field number alone, [prefix >> 3] on 32 bits, selects the field;
    the wire type is looked at only to pass over a field outside the
    schema.  A [Type] value has to be a value of the enum.  [Data] is
    the slice of at most the announced length: a slice cut short by the
    end of the input is taken as it is.  At the end both fields must
    have been met.  The model refuses an input that ends inside a
    varint.  Every key takes at least one byte, so the fuel, the length
    of the input, never runs out first. *)
Fixpoint decode_loop (fuel : nat) (buf : bytes)
  (T : option KeyType) (D : option bytes) : result KeyRecord :=
  match buf with
  | [] =>
      match T, D with
      | Some t, Some d => Ok {| Type_ := t; Data := d |}
      | _, _ => Err FormatError
      end
  | _ :: _ =>
      match fuel with
      | O => Err FormatError
      | S fuel =>
          match Varint.decode buf with
          | None => Err FormatError
          | Some (prefix, rest) =>
              let tag := (prefix mod 4294967296) / 8 in
              if tag =? tag_Type then
                match Varint.decode rest with
                | None => Err FormatError
                | Some (v, rest) =>
                    match KeyType_of v with
                    | None => Err FormatError
                    | Some t => decode_loop fuel rest (Some t) D
                    end
                end
              else if tag =? tag_Data then
                match Varint.decode rest with
                | None => Err FormatError
                | Some (len, rest) =>
                    decode_loop fuel (skipn (N.to_nat len) rest) T
                      (Some (firstn (N.to_nat len) rest))
                end
              else
                match skip (prefix mod 8) rest with
                | Err e => Err e
                | Ok rest => decode_loop fuel rest T D
                end
          end
      end
  end.

Definition decode_message (buf : bytes) : result KeyRecord :=
  decode_loop (List.length buf) buf None None.

(** A point of the input at which the loop gives up, whatever it has
    read before. *)
Definition stuck (rest : bytes) : Prop :=
  forall fuel T D, decode_loop (S fuel) rest T D = Err FormatError.

(** One field on the wire, and a run of fields. *)
Inductive field : Type :=
| FType (t : KeyType)
| FData (d : bytes).

Definition wire_field (f : field) : bytes :=
  match f with
  | FType t =>
      Varint.encode (field_key tag_Type wire_varint) ++ Varint.encode (KeyType_value t)
  | FData d =>
      Varint.encode (field_key tag_Data wire_bytes)
        ++ Varint.encode (N.of_nat (List.length d)) ++ d
  end.

Definition wire_fields (fs : list field) : bytes := flat_map wire_field fs.

(** The inputs that the spec calls malformed: a record cut short, a run
    of fields that ends inside a field, a field whose key is not one of
    the two of the schema, and a [Type] field whose value is not a known
    key type. *)
Inductive malformed : bytes -> Prop :=
| cut_record (r : KeyRecord) (b c : bytes) :
    encode_message r = b ++ c -> c <> [] -> malformed b
| cut_field (fs : list field) (f : field) (b c : bytes) :
    wire_field f = b ++ c -> b <> [] -> c <> [] -> malformed (wire_fields fs ++ b)
| bad_field (fs : list field) (key : N) (rest rest' : bytes) :
    Varint.decode rest = Some (key, rest') ->
    key <> field_key tag_Type wire_varint ->
    key <> field_key tag_Data wire_bytes ->
    malformed (wire_fields fs ++ rest)
| bad_type (fs : list field) (v : N) (rest : bytes) :
    KeyType_of v = None ->
    malformed (wire_fields fs ++ Varint.encode (field_key tag_Type wire_varint)
                 ++ Varint.encode v ++ rest).

(** The inputs that the decoder does refuse: a run of whole fields
    followed by a [Type] field whose value is not a known key type, and
    a run of whole fields that lacks one of the two fields (the empty
    input, a record cut before its [Data] field). *)
Inductive refused : bytes -> Prop :=
| unknown_type (fs : list field) (v : N) (rest : bytes) :
    KeyType_of v = None ->
    refused (wire_fields fs ++ Varint.encode (field_key tag_Type wire_varint)
               ++ Varint.encode v ++ rest)
| missing_Type (fs : list field) :
    (forall t, ~ In (FType t) fs) -> refused (wire_fields fs)
| missing_Data (fs : list field) :
    (forall d, ~ In (FData d) fs) -> refused (wire_fields fs).

(** The schema declares two messages of the same layout. *)
Module PublicKey.
Definition encode : KeyRecord -> bytes := encode_message.
Definition decode : bytes -> result KeyRecord := decode_message.
End PublicKey.

Module PrivateKey.
Definition encode : KeyRecord -> bytes := encode_message.
Definition decode : bytes -> result KeyRecord := decode_message.
End PrivateKey.

End pbCrypto.

(** ** The RSA provider *)

(** Keys as [node-forge] holds them: big integers. *)
Module forge.

Record PublicKey : Set := setPublicKey { modulus : N; exponent : N }.

Record PrivateKey : Set := setPrivateKey
  { n : N; e : N; d : N; p : N; q : N; dP : N; dQ : N; qInv : N }.

Record KeyPair : Set := { privateKey : PrivateKey; publicKey : PublicKey }.

End forge.

(** What the module runs on.  Node releases before 8 throw on hex text of
    odd length, later ones drop the last character: [hexOddThrows] tells
    which.  The rest is the provider: ASN.1 objects and their DER form,
    conversion of keys, key generation ([node-forge]), and the multihash
    function ([multihashing]). *)
Record Platform : Type :=
  { hexOddThrows : bool;
    Asn1 : Type;
    toDer : Asn1 -> bytes;
    fromDer : bytes -> result Asn1;
    publicKeyToAsn1 : forge.PublicKey -> Asn1;
    privateKeyToAsn1 : forge.PrivateKey -> Asn1;
    privateKeyFromAsn1 : Asn1 -> result forge.PrivateKey;
    generateKeyPair : N -> N -> result forge.KeyPair;
    multihashing : bytes -> string -> bytes }.

(** ** The module [src/index.js] *)

(** The text encodings that the module names. *)
Inductive encoding : Set := hex | base64.

(** The object that [toJSON] returns, and the objects with three text
    fields among those that [createFromJSON] reads.  An object that lacks
    a field, on which [new Buffer(undefined, 'hex')] throws a TypeError,
    is outside this type. *)
Module JSON.
Record t : Set := { id : string; privKey : string; pubKey : string }.
End JSON.

(** A peer id.  The constructor stores its three arguments as they come;
    every factory below calls it with [new], so its guard never fires. *)
Record PeerId : Type := { id : bytes; privKey : jsval; pubKey : jsval }.

(** A small stand-in provider, used to run the factory functions on
    concrete inputs: its ASN.1 objects are byte strings, its DER form of
    a key lists the low octets of the key's numbers, and its digest is
    the multihash header put before the input. *)
Module Sample.

Definition Asn1 : Type := bytes.

Definition toDer (a : Asn1) : bytes := a.

Definition fromDer (b : bytes) : result Asn1 :=
  match b with
  | [] => Err DecodeError
  | _ :: _ => Ok b
  end.

Definition publicKeyToAsn1 (k : forge.PublicKey) : Asn1 :=
  [x30; byte_of_N (forge.modulus k); byte_of_N (forge.exponent k)].

Definition privateKeyToAsn1 (k : forge.PrivateKey) : Asn1 :=
  [x30; byte_of_N (forge.n k); byte_of_N (forge.e k); byte_of_N (forge.d k)].

Definition privateKeyFromAsn1 (a : Asn1) : result forge.PrivateKey :=
  match a with
  | [_; vn; ve; vd] =>
      Ok (forge.setPrivateKey (Byte.to_N vn) (Byte.to_N ve) (Byte.to_N vd) 0 0 0 0 0)
  | _ => Err DecodeError
  end.

Definition generateKeyPair (bits e : N) : result forge.KeyPair :=
  Ok {| forge.privateKey := forge.setPrivateKey 33 e 7 3 11 1 7 2;
        forge.publicKey := forge.setPublicKey 33 e |}.

Definition multihashing (buf : bytes) (func : string) : bytes :=
  x12 :: x20 :: buf.

Definition platform (legacy : bool) : Platform :=
  Build_Platform legacy Asn1 toDer fromDer publicKeyToAsn1 privateKeyToAsn1
    privateKeyFromAsn1 generateKeyPair multihashing.

(** A private record as base64 text, the public record derived from it,
    and the identity that [createFromPrivKey] builds from the text. *)
Definition privRecord64 : string := "CAASBDAhAwc=".

Definition publicRecord : bytes := [x08; x00; x12; x03; x30; x21; x03].

Definition identity : PeerId :=
  {| id := x12 :: x20 :: publicRecord;
     privKey := JStr privRecord64;
     pubKey := JBuf publicRecord |}.

(** The identity that [create] builds from the generated pair. *)
Definition created : PeerId :=
  {| id := [x12; x20; x08; x00; x12; x03; x30; x21; x01];
     privKey := JBuf [x08; x00; x12; x04; x30; x21; x01; x07];
     pubKey := JBuf [x08; x00; x12; x03; x30; x21; x01] |}.

End Sample.

Section PeerId.

Variable env : Platform.

(** [new Buffer(v, enc)]: a buffer is copied and the encoding is not
    looked at, a string is decoded, anything else is refused. *)
Definition Buffer_new (v : jsval) (enc : encoding) : result bytes :=
  match v with
  | JBuf b => Ok b
  | JStr s =>
      match enc with
      | hex =>
          if hexOddThrows env && Nat.odd (String.length s) then Err EncodingError
          else Ok (Hex.decode_prefix s)
      | base64 => Ok (Base64.decode s)
      end
  | JNull | JUndefined => Err TypeError
  end.

(** [v.toString(enc)]: a buffer is encoded; a string returns itself, its
    [toString] takes no encoding; [null] and [undefined] have no
    methods. *)
Definition toString (v : jsval) (enc : encoding) : result string :=
  match v with
  | JBuf b =>
      Ok (match enc with
          | hex => Hex.encode b
          | base64 => Base64.encode b
          end)
  | JStr s => Ok s
  | JNull | JUndefined => Err TypeError
  end.

(** pretty print *)
Definition toPrint (self : PeerId) : result JSON.t :=
  let i := Base58.encode (id self) in
  k <- toString (privKey self) hex ;;
  u <- toString (pubKey self) hex ;;
  Ok {| JSON.id := i; JSON.privKey := k; JSON.pubKey := u |}.

Definition toJSON (self : PeerId) : result JSON.t :=
  i <- toString (JBuf (id self)) hex ;;
  k <- toString (privKey self) hex ;;
  u <- toString (pubKey self) hex ;;
  Ok {| JSON.id := i; JSON.privKey := k; JSON.pubKey := u |}.

Definition toHexString (self : PeerId) : string := Hex.encode (id self).

Definition toBytes (self : PeerId) : bytes := id self.

Definition toB58String (self : PeerId) : string := Base58.encode (id self).

(** unwrap the private key protobuf *)
Definition keyUnmarshal (key : bytes) : result pbCrypto.KeyRecord :=
  pbCrypto.PrivateKey.decode key.

(** [epb] stays [undefined] when [type] is neither of the two names. *)
Definition keyMarshal (data : bytes) (type : string) : jsval :=
  let epb := JUndefined in
  let epb :=
    if String.eqb type "Public"
    then JBuf (pbCrypto.PublicKey.encode
                 {| pbCrypto.Type_ := pbCrypto.RSA; pbCrypto.Data := data |})
    else epb in
  let epb :=
    if String.eqb type "Private"
    then JBuf (pbCrypto.PrivateKey.encode
                 {| pbCrypto.Type_ := pbCrypto.RSA; pbCrypto.Data := data |})
    else epb in
  epb.

(** The DER bytes pass from the provider's byte string to a Node buffer
    octet for octet. *)
Definition formatKey (key : Asn1 env) (type : string) : result string :=
  let der := toDer env key in
  let nDerBuf := der in
  let marsheledKey := keyMarshal nDerBuf type in
  toString marsheledKey base64.

Definition create (bits : option N) : result PeerId :=
  let bits :=
    match bits with
    | Some b => if b =? 0 then 2048 else b
    | None => 2048
    end in
  pair <- generateKeyPair env bits 65537 ;;
  let asnPub := publicKeyToAsn1 env (forge.publicKey pair) in
  let asnPriv := privateKeyToAsn1 env (forge.privateKey pair) in
  protoPublic64 <- formatKey asnPub "Public" ;;
  protoPrivate64 <- formatKey asnPriv "Private" ;;
  bufProtoPub64 <- Buffer_new (JStr protoPublic64) base64 ;;
  bufProtoPriv64 <- Buffer_new (JStr protoPrivate64) base64 ;;
  buf <- Buffer_new (JStr protoPublic64) base64 ;;
  let mhId := multihashing env buf "sha2-256" in
  Ok {| id := mhId; privKey := JBuf bufProtoPriv64; pubKey := JBuf bufProtoPub64 |}.

Definition createFromHexString (str : string) : result PeerId :=
  buf <- Buffer_new (JStr str) hex ;;
  Ok {| id := buf; privKey := JUndefined; pubKey := JUndefined |}.

Definition createFromBytes (buf : bytes) : result PeerId :=
  Ok {| id := buf; privKey := JUndefined; pubKey := JUndefined |}.

Definition createFromB58String (str : string) : result PeerId :=
  decoded <- Base58.decode str ;;
  Ok {| id := decoded; privKey := JUndefined; pubKey := JUndefined |}.

(** Public Key input will be a buffer *)
Definition createFromPubKey (pubKey : jsval) : result PeerId :=
  buf <- Buffer_new pubKey base64 ;;
  let mhId := multihashing env buf "sha2-256" in
  Ok {| id := mhId; privKey := JNull; pubKey := pubKey |}.

(** Private key input will be a string *)
Definition createFromPrivKey (privKey : jsval) : result PeerId :=
  buf <- Buffer_new privKey base64 ;;
  mpk <- keyUnmarshal buf ;;
  asnPriv <- fromDer env (pbCrypto.Data mpk) ;;
  privateKey <- privateKeyFromAsn1 env asnPriv ;;
  let publicKey := forge.setPublicKey (forge.n privateKey) (forge.e privateKey) in
  let asnPub := publicKeyToAsn1 env publicKey in
  protoPublic64 <- formatKey asnPub "Public" ;;
  bufProtoPub64 <- Buffer_new (JStr protoPublic64) base64 ;;
  buf' <- Buffer_new (JStr protoPublic64) base64 ;;
  let mhId := multihashing env buf' "sha2-256" in
  Ok {| id := mhId; privKey := privKey; pubKey := JBuf bufProtoPub64 |}.

Definition createFromJSON (obj : JSON.t) : result PeerId :=
  i <- Buffer_new (JStr (JSON.id obj)) hex ;;
  k <- Buffer_new (JStr (JSON.privKey obj)) hex ;;
  u <- Buffer_new (JStr (JSON.pubKey obj)) hex ;;
  Ok {| id := i; privKey := JBuf k; pubKey := JBuf u |}.

End PeerId.

(** * Properties *)

Example hex_encode_ex : Hex.encode [x12; x20; xab] = "1220ab"%string.
Proof. reflexivity. Qed.

Example hex_decode_ex : Hex.decode_prefix "12aBzz00" = [x12; xab].
Proof. reflexivity. Qed.

Example base64_encode_ex : Base64.encode [x08; x00; x12] = "CAAS"%string.
Proof. reflexivity. Qed.

Example base64_decode_ex : Base64.decode "CAAS pg==" = [x08; x00; x12; xa6].
Proof. reflexivity. Qed.

Example base58_encode_ex : Base58.encode [x00; x00; x01; x02] = "115T"%string.
Proof. reflexivity. Qed.

Example base58_decode_ex : Base58.decode "115T" = Ok [x00; x00; x01; x02].
Proof. reflexivity. Qed.

Example varint_ex : Varint.encode 294 = [xa6; x02] /\ Varint.decode [xa6; x02; x30] = Some (294, [x30]).
Proof. split; reflexivity. Qed.

Example record_ex :
  pbCrypto.encode_message {| pbCrypto.Type_ := pbCrypto.RSA; pbCrypto.Data := [x30; x82] |}
  = [x08; x00; x12; x02; x30; x82]
  /\ pbCrypto.decode_message [x08; x00; x12; x02; x30; x82]
     = Ok {| pbCrypto.Type_ := pbCrypto.RSA; pbCrypto.Data := [x30; x82] |}.
Proof. split; reflexivity. Qed.

(** ** Octets *)

Lemma byte_of_to_N (b : byte) : byte_of_N (Byte.to_N b) = b.
Proof.
  unfold byte_of_N. pose proof (Byte.to_N_bounded b) as H.
  rewrite N.mod_small by lia. now rewrite Byte.of_to_N.
Qed.

Lemma byte_to_N_lt (b : byte) : Byte.to_N b < 256.
Proof. pose proof (Byte.to_N_bounded b). lia. Qed.

Lemma byte_to_of_N (n : N) : Byte.to_N (byte_of_N n) = n mod 256.
Proof.
  unfold byte_of_N. destruct (Byte.of_N (n mod 256)) as [b|] eqn:E.
  - now apply Byte.to_of_N in E.
  - apply Byte.of_N_None_iff in E. pose proof (N.mod_lt n 256). lia.
Qed.

Lemma map_byte_of_to_N (b : bytes) : map byte_of_N (map Byte.to_N b) = b.
Proof.
  induction b as [|x b IH]; simpl; [reflexivity|].
  now rewrite byte_of_to_N, IH.
Qed.

(** A boolean test that holds on [0 .. k-1], checked by running it. *)
Lemma below_check (k : nat) (t : N -> bool) :
  forallb (fun i => t (N.of_nat i)) (seq 0 k) = true ->
  forall n, n < N.of_nat k -> t n = true.
Proof.
  intros H n Hn. rewrite forallb_forall in H.
  specialize (H (N.to_nat n)). rewrite N2Nat.id in H. apply H.
  apply in_seq. lia.
Qed.

(** ** Hex text *)

Lemma Hex_decode_pair (x : byte) (rest : list ascii) :
  Hex.decode_list (Hex.digit (Byte.to_N x / 16) :: Hex.digit (Byte.to_N x mod 16) :: rest)
  = x :: Hex.decode_list rest.
Proof. destruct x; reflexivity. Qed.

Lemma Hex_decode_encode_list (b : bytes) : Hex.decode_list (Hex.encode_list b) = b.
Proof.
  induction b as [|x b IH]; [reflexivity|].
  unfold Hex.encode_list in *. simpl flat_map. cbn [app].
  now rewrite Hex_decode_pair, IH.
Qed.

Lemma Hex_decode_encode (b : bytes) : Hex.decode_prefix (Hex.encode b) = b.
Proof.
  unfold Hex.decode_prefix, Hex.encode.
  now rewrite list_ascii_of_string_of_list_ascii, Hex_decode_encode_list.
Qed.

Lemma string_length_of_list (l : list ascii) :
  String.length (string_of_list_ascii l) = List.length l.
Proof. induction l; simpl; congruence. Qed.

Lemma Hex_encode_even (b : bytes) : Nat.odd (String.length (Hex.encode b)) = false.
Proof.
  unfold Hex.encode. rewrite string_length_of_list.
  induction b as [|x b IH]; [reflexivity|].
  unfold Hex.encode_list in *. simpl flat_map. cbn [app List.length].
  now rewrite Nat.odd_succ_succ.
Qed.

(** ** Base64 text *)

Lemma Base64_char_value (n : N) :
  n < 64 -> Ascii.eqb (Base64.char n) Base64.pad = false /\ Base64.unbase64 (Base64.char n) = Some n.
Proof.
  intros Hn.
  assert (H : (negb (Ascii.eqb (Base64.char n) Base64.pad)
               && match Base64.unbase64 (Base64.char n) with
                  | Some v => v =? n
                  | None => false
                  end) = true).
  { revert n Hn. apply (below_check 64). vm_compute. reflexivity. }
  apply andb_true_iff in H. destruct H as [H1 H2].
  split.
  - now apply negb_true_iff in H1.
  - destruct (Base64.unbase64 (Base64.char n)); [|discriminate].
    apply N.eqb_eq in H2. now subst.
Qed.

Lemma Base64_sextets_char (n : N) (rest : list ascii) :
  n < 64 -> Base64.sextets (Base64.char n :: rest) = n :: Base64.sextets rest.
Proof.
  intros Hn. destruct (Base64_char_value n Hn) as [H1 H2].
  cbn [Base64.sextets]. now rewrite H1, H2.
Qed.

Lemma Base64_sextets_pad (rest : list ascii) : Base64.sextets (Base64.pad :: rest) = [].
Proof. reflexivity. Qed.

Lemma list_ind3 {A : Type} (P : list A -> Prop) :
  P [] -> (forall a, P [a]) -> (forall a b, P [a; b]) ->
  (forall a b c l, P l -> P (a :: b :: c :: l)) ->
  forall l, P l.
Proof.
  intros H0 H1 H2 H3 l.
  assert (H : P l /\ (forall a, P (a :: l)) /\ (forall a b, P (a :: b :: l))).
  { induction l as [|x l [IH0 [IH1 IH2]]]; auto. }
  apply H.
Qed.

Lemma Base64_unpack_sextets (b : bytes) :
  Base64.unpack (Base64.sextets (Base64.encode_list b)) = b.
Proof.
  induction b as [| x | x y | x y z rest IH] using list_ind3.
  - reflexivity.
  - pose proof (byte_to_N_lt x) as Hx.
    cbn [Base64.encode_list].
    rewrite !Base64_sextets_char, Base64_sextets_pad by lia.
    cbn [Base64.unpack]. f_equal.
    rewrite <- (byte_of_to_N x) at 3. f_equal. lia.
  - pose proof (byte_to_N_lt x) as Hx. pose proof (byte_to_N_lt y) as Hy.
    cbn [Base64.encode_list].
    rewrite !Base64_sextets_char, Base64_sextets_pad by lia.
    cbn [Base64.unpack]. f_equal; [|f_equal].
    + rewrite <- (byte_of_to_N x) at 3. f_equal. lia.
    + rewrite <- (byte_of_to_N y) at 3. f_equal. lia.
  - pose proof (byte_to_N_lt x) as Hx. pose proof (byte_to_N_lt y) as Hy.
    pose proof (byte_to_N_lt z) as Hz.
    cbn [Base64.encode_list].
    rewrite !Base64_sextets_char by lia.
    cbn [Base64.unpack]. rewrite IH. f_equal; [|f_equal; [|f_equal]].
    + rewrite <- (byte_of_to_N x) at 3. f_equal. lia.
    + rewrite <- (byte_of_to_N y) at 3. f_equal. lia.
    + rewrite <- (byte_of_to_N z) at 3. f_equal. lia.
Qed.

Lemma Base64_decode_encode (b : bytes) : Base64.decode (Base64.encode b) = b.
Proof.
  unfold Base64.decode, Base64.encode.
  now rewrite list_ascii_of_string_of_list_ascii, Base64_unpack_sextets.
Qed.

(** ** Positional notation *)

Section RadixFacts.

Variable base : N.
Hypothesis base_ge_2 : 2 <= base.

Lemma Radix_value_snoc (ds : list N) (d : N) :
  Radix.value base (ds ++ [d]) = Radix.value base ds * base + d.
Proof. unfold Radix.value. now rewrite fold_left_app. Qed.

Lemma Radix_digits_fuel_acc (fuel : nat) (n : N) (acc : list N) :
  Radix.digits_fuel base fuel n acc = Radix.digits_fuel base fuel n [] ++ acc.
Proof.
  revert n acc. induction fuel as [|fuel IH]; intros n acc; simpl; [reflexivity|].
  destruct (n =? 0); [reflexivity|].
  rewrite IH, (IH _ [n mod base]), <- app_assoc. reflexivity.
Qed.

Lemma Radix_digits_fuel_enough (fuel fuel' : nat) (n : N) (acc : list N) :
  n < 2 ^ N.of_nat fuel -> n < 2 ^ N.of_nat fuel' ->
  Radix.digits_fuel base fuel n acc = Radix.digits_fuel base fuel' n acc.
Proof.
  revert fuel' n acc. induction fuel as [|fuel IH]; intros fuel' n acc H H'.
  - simpl in H. assert (n = 0) by lia. subst n.
    destruct fuel'; reflexivity.
  - destruct fuel' as [|fuel'].
    + simpl in H'. assert (n = 0) by lia. subst n. reflexivity.
    + simpl. destruct (n =? 0) eqn:E; [reflexivity|].
      apply N.eqb_neq in E.
      assert (Hdiv : forall k, n < 2 ^ N.of_nat (S k) -> n / base < 2 ^ N.of_nat k).
      { intros k Hk. rewrite Nat2N.inj_succ, N.pow_succ_r' in Hk.
        apply N.Div0.div_lt_upper_bound. nia. }
      apply IH; apply Hdiv; assumption.
Qed.

Lemma Radix_digits_0 : Radix.digits base 0 = [].
Proof. reflexivity. Qed.

Lemma Radix_digits_step (n : N) :
  n <> 0 -> Radix.digits base n = Radix.digits base (n / base) ++ [n mod base].
Proof.
  intros Hn. unfold Radix.digits.
  pose proof (N.size_gt n) as Hs.
  destruct (N.to_nat (N.size n)) as [|fuel] eqn:E.
  - assert (N.size n = 0) by lia. rewrite H in Hs. simpl in Hs. lia.
  - simpl. apply N.eqb_neq in Hn. rewrite Hn. apply N.eqb_neq in Hn.
    rewrite Radix_digits_fuel_acc. f_equal.
    assert (Hfuel : n / base < 2 ^ N.of_nat fuel).
    { apply N.Div0.div_lt_upper_bound.
      assert (N.size n = N.succ (N.of_nat fuel)) as Hsz by lia.
      rewrite Hsz, N.pow_succ_r' in Hs. nia. }
    apply Radix_digits_fuel_enough; [assumption|].
    rewrite N2Nat.id. apply N.size_gt.
Qed.

Lemma Radix_value_digits (n : N) : Radix.value base (Radix.digits base n) = n.
Proof.
  induction n as [n IH] using (well_founded_induction N.lt_wf_0).
  destruct (N.eq_dec n 0) as [->|Hn]; [reflexivity|].
  rewrite Radix_digits_step, Radix_value_snoc by assumption.
  rewrite IH by (apply N.div_lt; lia).
  pose proof (N.div_mod n base). lia.
Qed.

Lemma Radix_value_0_zeros (ds : list N) :
  Radix.value base ds = 0 -> Forall (fun d => d = 0) ds.
Proof.
  induction ds as [|d ds IH] using rev_ind; intros H; [constructor|].
  rewrite Radix_value_snoc in H.
  apply Forall_app. split; [apply IH; nia|]. constructor; [lia|constructor].
Qed.

Lemma Radix_leading_zeros_snoc (ds : list N) (d : N) :
  ds <> [] -> Radix.leading_zeros (ds ++ [d]) = O -> Radix.leading_zeros ds = O.
Proof.
  destruct ds as [|x ds]; [congruence|]. intros _. simpl.
  destruct (x =? 0); [discriminate|reflexivity].
Qed.

Lemma Radix_digits_value (ds : list N) :
  Radix.canonical base ds -> Radix.digits base (Radix.value base ds) = ds.
Proof.
  induction ds as [|d ds IH] using rev_ind; intros [Hall Hlead]; [reflexivity|].
  apply Forall_app in Hall. destruct Hall as [Hds Hd].
  inversion Hd as [|? ? Hdlt _]; subst.
  rewrite Radix_value_snoc.
  assert (Hnz : Radix.value base ds * base + d <> 0).
  { intros H0. destruct ds as [|x ds].
    - simpl in Hlead. unfold Radix.value in H0. simpl in H0. subst d.
      simpl in Hlead. discriminate.
    - assert (Hv : Radix.value base (x :: ds) = 0) by nia.
      apply Radix_value_0_zeros in Hv. inversion Hv; subst.
      simpl in Hlead. discriminate. }
  rewrite Radix_digits_step by assumption.
  assert (Hq : (Radix.value base ds * base + d) / base = Radix.value base ds).
  { rewrite N.div_add_l by lia. rewrite N.div_small by assumption. lia. }
  assert (Hr : (Radix.value base ds * base + d) mod base = d).
  { rewrite N.add_comm, N.Div0.mod_add. now apply N.mod_small. }
  rewrite Hq, Hr. destruct ds as [|x ds]; [reflexivity|].
  rewrite IH; [reflexivity|]. split; [assumption|].
  apply (Radix_leading_zeros_snoc (x :: ds) d); [discriminate|assumption].
Qed.

Lemma Radix_digits_canonical (n : N) : Radix.canonical base (Radix.digits base n).
Proof.
  induction n as [n IH] using (well_founded_induction N.lt_wf_0).
  destruct (N.eq_dec n 0) as [->|Hn]; [split; [constructor|reflexivity]|].
  rewrite Radix_digits_step by assumption.
  destruct (IH (n / base)) as [Hall Hlead]; [apply N.div_lt; lia|].
  split.
  - apply Forall_app. split; [assumption|].
    constructor; [apply N.mod_lt; lia|constructor].
  - destruct (Radix.digits base (n / base)) as [|x l] eqn:E.
    + simpl. destruct (N.eq_dec (n / base) 0) as [Hq|Hq].
      * assert (n mod base <> 0) by (pose proof (N.div_mod n base); nia).
        apply N.eqb_neq in H. now rewrite H.
      * rewrite Radix_digits_step in E by assumption.
        destruct (Radix.digits base (n / base / base)); discriminate.
    + simpl in *. destruct (x =? 0); [discriminate|reflexivity].
Qed.

Lemma Radix_value_zeros (k : nat) (ds : list N) :
  Radix.value base (repeat 0 k ++ ds) = Radix.value base ds.
Proof.
  unfold Radix.value. rewrite fold_left_app.
  replace (fold_left (fun acc d => acc * base + d) (repeat 0 k) 0) with 0; [reflexivity|].
  induction k as [|k IH]; simpl; [reflexivity|]. exact IH.
Qed.

Lemma Radix_leading_zeros_repeat (k : nat) (ds : list N) :
  Radix.leading_zeros (repeat 0 k ++ ds) = (k + Radix.leading_zeros ds)%nat.
Proof. induction k as [|k IH]; simpl; [reflexivity|]. now rewrite IH. Qed.

(** A digit string is its leading zeros followed by the notation of a
    number. *)
Lemma Radix_split (ds : list N) :
  Forall (fun d => d < base) ds ->
  exists tl, ds = repeat 0 (Radix.leading_zeros ds) ++ tl /\ Radix.canonical base tl.
Proof.
  induction ds as [|d ds IH]; intros Hall.
  - exists []. split; [reflexivity|]. split; [constructor|reflexivity].
  - inversion Hall as [|? ? Hd Hds]; subst. simpl.
    destruct (d =? 0) eqn:E.
    + apply N.eqb_eq in E. subst d.
      destruct (IH Hds) as [tl [Heq Hc]]. exists tl. split; [|assumption].
      simpl. now rewrite <- Heq.
    + exists (d :: ds). split; [reflexivity|]. split; [assumption|].
      simpl. now rewrite E.
Qed.

End RadixFacts.

(** ** Base58 text *)

Lemma Base58_index_char (n : N) : n < 58 -> Base58.index (Base58.char n) = Some n.
Proof.
  intros Hn.
  assert (H : match Base58.index (Base58.char n) with
              | Some v => v =? n
              | None => false
              end = true).
  { revert n Hn. apply (below_check 58). vm_compute. reflexivity. }
  destruct (Base58.index (Base58.char n)); [|discriminate].
  apply N.eqb_eq in H. now subst.
Qed.

Lemma Base58_indices_chars (ds : list N) :
  Forall (fun d => d < 58) ds -> Base58.indices (map Base58.char ds) = Some ds.
Proof.
  induction 1 as [|d ds Hd _ IH]; [reflexivity|].
  cbn [map Base58.indices]. now rewrite Base58_index_char, IH.
Qed.

Lemma Base58_index_from_None (c : ascii) (l : list ascii) (i : N) :
  ~ In c l -> Base58.index_from c l i = None.
Proof.
  revert i. induction l as [|a l IH]; intros i Hc; [reflexivity|].
  simpl. destruct (Ascii.eqb c a) eqn:E.
  - apply Ascii.eqb_eq in E. subst. exfalso. apply Hc. now left.
  - apply IH. intros H. apply Hc. now right.
Qed.

Lemma Base58_indices_None (s : list ascii) (c : ascii) :
  In c s -> ~ In c Base58.alphabet -> Base58.indices s = None.
Proof.
  induction s as [|a s IH]; intros Hin Hc; [contradiction|].
  cbn [Base58.indices]. destruct Hin as [->|Hin].
  - unfold Base58.index. now rewrite Base58_index_from_None.
  - rewrite (IH Hin Hc). now destruct (Base58.index a).
Qed.

Lemma Forall_repeat_0 (b : N) (k : nat) : 0 < b -> Forall (fun d => d < b) (repeat 0 k).
Proof. intros Hb. induction k; simpl; constructor; assumption. Qed.

Lemma Base58_encode_digits_range (bs : list N) :
  Forall (fun d => d < 58) (Base58.encode_digits bs).
Proof.
  unfold Base58.encode_digits. apply Forall_app. split.
  - apply Forall_repeat_0. lia.
  - apply (Radix_digits_canonical 58); lia.
Qed.

Lemma Base58_decode_encode_digits (bs : list N) :
  Forall (fun d => d < 256) bs -> Base58.decode_digits (Base58.encode_digits bs) = bs.
Proof.
  intros Hbs. unfold Base58.decode_digits, Base58.encode_digits.
  destruct (Radix_digits_canonical 58 ltac:(lia) (Radix.value 256 bs)) as [_ Hlead].
  rewrite Radix_leading_zeros_repeat, Hlead, Nat.add_0_r.
  rewrite Radix_value_zeros, (Radix_value_digits 58) by lia.
  destruct (Radix_split 256 bs Hbs) as [tl [Heq Hc]].
  rewrite Heq at 2 3. rewrite Radix_value_zeros.
  now rewrite (Radix_digits_value 256) by (lia || assumption).
Qed.

Lemma Base58_decode_encode (b : bytes) : Base58.decode (Base58.encode b) = Ok b.
Proof.
  unfold Base58.decode, Base58.encode.
  rewrite list_ascii_of_string_of_list_ascii.
  rewrite Base58_indices_chars by apply Base58_encode_digits_range.
  rewrite Base58_decode_encode_digits.
  - now rewrite map_byte_of_to_N.
  - apply Forall_forall. intros d Hd. apply in_map_iff in Hd.
    destruct Hd as [x [<- _]]. apply byte_to_N_lt.
Qed.

Lemma Base58_decode_outside (s : string) (c : ascii) :
  In c (list_ascii_of_string s) -> ~ In c Base58.alphabet ->
  Base58.decode s = Err EncodingError.
Proof.
  intros Hin Hc. unfold Base58.decode.
  now rewrite (Base58_indices_None _ c Hin Hc).
Qed.

(** ** Varints *)

Lemma Varint_decode_encode_fuel (fuel : nat) (n : N) (rest : bytes) :
  n < 2 ^ N.of_nat fuel ->
  Varint.decode (Varint.encode_fuel fuel n ++ rest) = Some (n, rest).
Proof.
  revert n. induction fuel as [|fuel IH]; intros n Hn.
  - simpl in Hn. assert (n = 0) by lia. subst n. reflexivity.
  - cbn [Varint.encode_fuel]. destruct (n <? 128) eqn:E.
    + apply N.ltb_lt in E. cbn [app Varint.decode].
      rewrite byte_to_of_N, N.mod_small by lia.
      apply N.ltb_lt in E. now rewrite E.
    + apply N.ltb_ge in E. cbn [app Varint.decode].
      rewrite byte_to_of_N.
      assert (Hm : (n mod 128 + 128) mod 256 = n mod 128 + 128) by lia.
      rewrite Hm.
      assert (Hb : (n mod 128 + 128 <? 128) = false) by (apply N.ltb_ge; lia).
      rewrite Hb, IH.
      * f_equal. f_equal. lia.
      * rewrite Nat2N.inj_succ, N.pow_succ_r' in Hn.
        apply N.Div0.div_lt_upper_bound. lia.
Qed.

Lemma Varint_decode_encode (n : N) (rest : bytes) :
  Varint.decode (Varint.encode n ++ rest) = Some (n, rest).
Proof.
  unfold Varint.encode. apply Varint_decode_encode_fuel.
  rewrite N2Nat.id. apply N.size_gt.
Qed.

(** A varint that is cut short cannot be read. *)
Lemma Varint_decode_cut_fuel (fuel : nat) (n : N) (l1 l2 : bytes) :
  Varint.encode_fuel fuel n = l1 ++ l2 -> l2 <> [] -> Varint.decode l1 = None.
Proof.
  revert n l1. induction fuel as [|fuel IH]; intros n l1 H Hl2.
  - destruct l1 as [|x l1]; [reflexivity|].
    simpl in H. injection H as _ H. destruct l1; destruct l2; discriminate || congruence.
  - cbn [Varint.encode_fuel] in H. destruct (n <? 128) eqn:E.
    + destruct l1 as [|x l1]; [reflexivity|].
      injection H as _ H. destruct l1; destruct l2; discriminate || congruence.
    + apply N.ltb_ge in E. destruct l1 as [|x l1]; [reflexivity|].
      injection H as Hx H. subst x. cbn [Varint.decode].
      rewrite byte_to_of_N.
      assert (Hb : ((n mod 128 + 128) mod 256 <? 128) = false) by (apply N.ltb_ge; lia).
      rewrite Hb, (IH _ _ H Hl2). reflexivity.
Qed.

Lemma Varint_decode_cut (n : N) (l1 l2 : bytes) :
  Varint.encode n = l1 ++ l2 -> l2 <> [] -> Varint.decode l1 = None.
Proof. apply Varint_decode_cut_fuel. Qed.

Lemma Varint_encode_fuel_nonempty (fuel : nat) (n : N) : Varint.encode_fuel fuel n <> [].
Proof. destruct fuel; simpl; [discriminate|]. destruct (n <? 128); discriminate. Qed.

Lemma Varint_encode_key_Type :
  Varint.encode (pbCrypto.field_key pbCrypto.tag_Type pbCrypto.wire_varint) = [x08].
Proof. reflexivity. Qed.

Lemma Varint_encode_key_Data :
  Varint.encode (pbCrypto.field_key pbCrypto.tag_Data pbCrypto.wire_bytes) = [x12].
Proof. reflexivity. Qed.

(** ** The record codec *)

Lemma decode_loop_unfold (fuel : nat) (x : byte) (buf : bytes)
  (T : option pbCrypto.KeyType) (D : option bytes) :
  pbCrypto.decode_loop (S fuel) (x :: buf) T D =
  match Varint.decode (x :: buf) with
  | None => Err FormatError
  | Some (prefix, rest) =>
      if (prefix mod 4294967296) / 8 =? pbCrypto.tag_Type then
        match Varint.decode rest with
        | None => Err FormatError
        | Some (v, rest) =>
            match pbCrypto.KeyType_of v with
            | None => Err FormatError
            | Some t => pbCrypto.decode_loop fuel rest (Some t) D
            end
        end
      else if (prefix mod 4294967296) / 8 =? pbCrypto.tag_Data then
        match Varint.decode rest with
        | None => Err FormatError
        | Some (len, rest) =>
            pbCrypto.decode_loop fuel (skipn (N.to_nat len) rest) T
              (Some (firstn (N.to_nat len) rest))
        end
      else
        match pbCrypto.skip (prefix mod 8) rest with
        | Err e => Err e
        | Ok rest => pbCrypto.decode_loop fuel rest T D
        end
  end.
Proof. reflexivity. Qed.

Lemma decode_loop_key_Type (fuel : nat) (buf : bytes)
  (T : option pbCrypto.KeyType) (D : option bytes) :
  pbCrypto.decode_loop (S fuel) (x08 :: buf) T D =
  match Varint.decode buf with
  | None => Err FormatError
  | Some (v, rest) =>
      match pbCrypto.KeyType_of v with
      | None => Err FormatError
      | Some t => pbCrypto.decode_loop fuel rest (Some t) D
      end
  end.
Proof. reflexivity. Qed.

Lemma decode_loop_key_Data (fuel : nat) (buf : bytes)
  (T : option pbCrypto.KeyType) (D : option bytes) :
  pbCrypto.decode_loop (S fuel) (x12 :: buf) T D =
  match Varint.decode buf with
  | None => Err FormatError
  | Some (len, rest) =>
      pbCrypto.decode_loop fuel (skipn (N.to_nat len) rest) T
        (Some (firstn (N.to_nat len) rest))
  end.
Proof. reflexivity. Qed.

(** One well-formed field is read in one turn of the loop. *)
Lemma decode_loop_field (fuel : nat) (f : pbCrypto.field) (rest : bytes)
  (T : option pbCrypto.KeyType) (D : option bytes) :
  pbCrypto.decode_loop (S fuel) (pbCrypto.wire_field f ++ rest) T D =
  match f with
  | pbCrypto.FType t => pbCrypto.decode_loop fuel rest (Some t) D
  | pbCrypto.FData d => pbCrypto.decode_loop fuel rest T (Some d)
  end.
Proof.
  destruct f as [[]|d].
  - reflexivity.
  - unfold pbCrypto.wire_field. rewrite Varint_encode_key_Data.
    rewrite <- !app_assoc. cbn [app]. rewrite decode_loop_key_Data.
    rewrite Varint_decode_encode, Nat2N.id.
    rewrite skipn_app, firstn_app, skipn_all, firstn_all, Nat.sub_diag.
    cbn [skipn firstn app]. now rewrite app_nil_r.
Qed.

Lemma wire_field_length (f : pbCrypto.field) : (1 <= List.length (pbCrypto.wire_field f))%nat.
Proof.
  destruct f as [[]|d]; [simpl; lia|].
  unfold pbCrypto.wire_field. rewrite Varint_encode_key_Data. simpl. lia.
Qed.

Lemma encode_message_fields (r : pbCrypto.KeyRecord) :
  pbCrypto.encode_message r =
  pbCrypto.wire_fields [pbCrypto.FType (pbCrypto.Type_ r); pbCrypto.FData (pbCrypto.Data r)].
Proof.
  unfold pbCrypto.encode_message, pbCrypto.wire_fields. cbn [flat_map pbCrypto.wire_field].
  now rewrite app_nil_r, <- !app_assoc.
Qed.

(** The decoder undoes the encoder. *)
Lemma decode_encode_message (r : pbCrypto.KeyRecord) :
  pbCrypto.decode_message (pbCrypto.encode_message r) = Ok r.
Proof.
  unfold pbCrypto.decode_message. rewrite encode_message_fields.
  unfold pbCrypto.wire_fields. cbn [flat_map]. rewrite app_nil_r.
  pose proof (wire_field_length (pbCrypto.FType (pbCrypto.Type_ r))) as H1.
  pose proof (wire_field_length (pbCrypto.FData (pbCrypto.Data r))) as H2.
  rewrite length_app.
  destruct (List.length (pbCrypto.wire_field (pbCrypto.FType (pbCrypto.Type_ r)))) as [|k1]; [lia|].
  destruct (List.length (pbCrypto.wire_field (pbCrypto.FData (pbCrypto.Data r)))) as [|k2]; [lia|].
  rewrite Nat.add_succ_r. cbn [Nat.add].
  rewrite decode_loop_field.
  rewrite <- (app_nil_r (pbCrypto.wire_field (pbCrypto.FData _))).
  rewrite decode_loop_field. destruct r. destruct (k1 + k2)%nat; reflexivity.
Qed.

Lemma stuck_nonempty (rest : bytes) : pbCrypto.stuck rest -> rest <> [].
Proof.
  intros H ->. specialize (H O (Some pbCrypto.RSA) (Some [])). discriminate.
Qed.

Lemma decode_loop_fields_stuck (fs : list pbCrypto.field) (rest : bytes) :
  pbCrypto.stuck rest ->
  forall fuel T D,
    (List.length (pbCrypto.wire_fields fs ++ rest) <= fuel)%nat ->
    pbCrypto.decode_loop fuel (pbCrypto.wire_fields fs ++ rest) T D = Err FormatError.
Proof.
  intros Hs. induction fs as [|f fs IH]; intros fuel T D Hfuel.
  - cbn [pbCrypto.wire_fields flat_map app] in *.
    pose proof (stuck_nonempty rest Hs) as Hne.
    destruct fuel as [|fuel]; [destruct rest; [congruence|simpl in Hfuel; lia]|].
    apply Hs.
  - unfold pbCrypto.wire_fields in *. cbn [flat_map] in *.
    rewrite <- app_assoc in *. rewrite length_app in Hfuel.
    pose proof (wire_field_length f) as Hf.
    destruct fuel as [|fuel]; [lia|].
    rewrite decode_loop_field. destruct f; apply IH; lia.
Qed.

Lemma decode_message_fields_stuck (fs : list pbCrypto.field) (rest : bytes) :
  pbCrypto.stuck rest -> pbCrypto.decode_message (pbCrypto.wire_fields fs ++ rest) = Err FormatError.
Proof.
  intros Hs. unfold pbCrypto.decode_message.
  now apply decode_loop_fields_stuck.
Qed.

Lemma stuck_bad_type (v : N) (rest : bytes) :
  pbCrypto.KeyType_of v = None ->
  pbCrypto.stuck (Varint.encode (pbCrypto.field_key pbCrypto.tag_Type pbCrypto.wire_varint)
           ++ Varint.encode v ++ rest).
Proof.
  intros Hv fuel T D. rewrite Varint_encode_key_Type. cbn [app].
  now rewrite decode_loop_key_Type, Varint_decode_encode, Hv.
Qed.

(** A run of whole fields without a [Type] field, read with no type met
    so far, ends in an error; the same for [Data]. *)
Lemma decode_loop_fields_no_Type (fs : list pbCrypto.field) :
  (forall t, ~ In (pbCrypto.FType t) fs) ->
  forall fuel D,
    (List.length (pbCrypto.wire_fields fs) <= fuel)%nat ->
    pbCrypto.decode_loop fuel (pbCrypto.wire_fields fs) None D = Err FormatError.
Proof.
  induction fs as [|f fs IH]; intros Hno fuel D Hfuel.
  - destruct fuel; reflexivity.
  - unfold pbCrypto.wire_fields in *. cbn [flat_map] in *.
    rewrite length_app in Hfuel. pose proof (wire_field_length f) as Hf.
    destruct fuel as [|fuel]; [lia|].
    rewrite decode_loop_field. destruct f as [t|d].
    + exfalso. apply (Hno t). now left.
    + apply IH; [|lia]. intros t Hin. apply (Hno t). now right.
Qed.

Lemma decode_loop_fields_no_Data (fs : list pbCrypto.field) :
  (forall d, ~ In (pbCrypto.FData d) fs) ->
  forall fuel T,
    (List.length (pbCrypto.wire_fields fs) <= fuel)%nat ->
    pbCrypto.decode_loop fuel (pbCrypto.wire_fields fs) T None = Err FormatError.
Proof.
  induction fs as [|f fs IH]; intros Hno fuel T Hfuel.
  - destruct fuel; destruct T; reflexivity.
  - unfold pbCrypto.wire_fields in *. cbn [flat_map] in *.
    rewrite length_app in Hfuel. pose proof (wire_field_length f) as Hf.
    destruct fuel as [|fuel]; [lia|].
    rewrite decode_loop_field. destruct f as [t|d].
    + apply IH; [|lia]. intros d Hin. apply (Hno d). now right.
    + exfalso. apply (Hno d). now left.
Qed.

(** Every input of the kinds gathered in [refused] is refused by the
    decoder. *)
Lemma decode_message_refused (buf : bytes) :
  pbCrypto.refused buf -> pbCrypto.decode_message buf = Err FormatError.
Proof.
  intros H. destruct H as [fs v rest H | fs H | fs H].
  - apply decode_message_fields_stuck. now apply stuck_bad_type.
  - unfold pbCrypto.decode_message. now apply decode_loop_fields_no_Type.
  - unfold pbCrypto.decode_message. now apply decode_loop_fields_no_Data.
Qed.

(** A [Data] field whose announced length runs past the end of the input
    is read as the bytes that are there. *)
Lemma decode_message_short_Data (len : N) (d : bytes) :
  N.of_nat (List.length d) <= len ->
  pbCrypto.decode_message
    (pbCrypto.wire_field (pbCrypto.FType pbCrypto.RSA)
       ++ Varint.encode (pbCrypto.field_key pbCrypto.tag_Data pbCrypto.wire_bytes)
       ++ Varint.encode len ++ d)
  = Ok {| pbCrypto.Type_ := pbCrypto.RSA; pbCrypto.Data := d |}.
Proof.
  intros Hlen. unfold pbCrypto.decode_message.
  rewrite Varint_encode_key_Data.
  change (pbCrypto.wire_field (pbCrypto.FType pbCrypto.RSA)) with [x08; x00].
  cbn [app List.length]. rewrite decode_loop_key_Type. cbn [Varint.decode].
  change (Byte.to_N x00 <? 128) with true. cbv iota.
  change (pbCrypto.KeyType_of (Byte.to_N x00)) with (Some pbCrypto.RSA). cbv iota.
  rewrite decode_loop_key_Data, Varint_decode_encode.
  rewrite firstn_all2, skipn_all2 by lia.
  destruct (List.length (Varint.encode len ++ d)); reflexivity.
Qed.

Lemma Varint_decode_length (b : bytes) (v : N) (rest : bytes) :
  Varint.decode b = Some (v, rest) -> (List.length rest < List.length b)%nat.
Proof.
  revert v rest. induction b as [|x b IH]; intros v rest H; [discriminate|].
  cbn [Varint.decode] in H. destruct (Byte.to_N x <? 128).
  - injection H as _ <-. simpl. lia.
  - destruct (Varint.decode b) as [[hi rest']|] eqn:E; [|discriminate].
    injection H as _ <-. specialize (IH _ _ eq_refl). simpl. lia.
Qed.

Lemma skip_length (wire : N) (buf rest : bytes) :
  pbCrypto.skip wire buf = Ok rest -> (List.length rest <= List.length buf)%nat.
Proof.
  unfold pbCrypto.skip. intros H.
  destruct (wire =? 0).
  - destruct (Varint.decode buf) as [[v r]|] eqn:E; [|discriminate].
    injection H as <-. apply Varint_decode_length in E. lia.
  - destruct (wire =? 1).
    + assert (Hr : rest = skipn 8 buf) by congruence.
      rewrite Hr, length_skipn. lia.
    + destruct (wire =? 2).
      * destruct (Varint.decode buf) as [[v r]|] eqn:E; [|discriminate].
        injection H as <-. apply Varint_decode_length in E.
        rewrite length_skipn. lia.
      * destruct (wire =? 5); [|discriminate].
        assert (Hr : rest = skipn 4 buf) by congruence.
        rewrite Hr, length_skipn. lia.
Qed.

(** The loop never stops for want of fuel: any fuel that covers the input
    gives the same answer. *)
Lemma decode_loop_fuel (fuel fuel' : nat) (buf : bytes)
  (T : option pbCrypto.KeyType) (D : option bytes) :
  (List.length buf <= fuel)%nat -> (List.length buf <= fuel')%nat ->
  pbCrypto.decode_loop fuel buf T D = pbCrypto.decode_loop fuel' buf T D.
Proof.
  revert fuel' buf T D. induction fuel as [|fuel IH]; intros fuel' buf T D H H'.
  - destruct buf; [destruct fuel'; reflexivity|simpl in H; lia].
  - destruct buf as [|x buf]; [destruct fuel'; reflexivity|].
    destruct fuel' as [|fuel']; [simpl in H'; lia|].
    rewrite !decode_loop_unfold.
    destruct (Varint.decode (x :: buf)) as [[prefix rest]|] eqn:E; [|reflexivity].
    apply Varint_decode_length in E. cbn [List.length] in *.
    destruct (prefix mod 4294967296 / 8 =? pbCrypto.tag_Type).
    + destruct (Varint.decode rest) as [[v rest2]|] eqn:E2; [|reflexivity].
      apply Varint_decode_length in E2.
      destruct (pbCrypto.KeyType_of v); [|reflexivity].
      apply IH; lia.
    + destruct (prefix mod 4294967296 / 8 =? pbCrypto.tag_Data).
      * destruct (Varint.decode rest) as [[len rest2]|] eqn:E2; [|reflexivity].
        apply Varint_decode_length in E2.
        pose proof (length_skipn (N.to_nat len) rest2).
        apply IH; lia.
      * destruct (pbCrypto.skip (prefix mod 8) rest) as [rest2|e] eqn:E2; [|reflexivity].
        apply skip_length in E2. apply IH; lia.
Qed.

(** ** The module *)

Lemma bind_Ok {A B : Type} (c : result A) (k : A -> result B) (b : B) :
  bind c k = Ok b -> exists a, c = Ok a /\ k a = Ok b.
Proof. destruct c as [a|e0]; [intros H; now exists a|discriminate]. Qed.

(** Splits a successful run of binds into its successful steps. *)
Ltac bind_inv H :=
  let a := fresh "a" in
  let E := fresh "E" in
  apply bind_Ok in H; destruct H as [a [E H]].

Lemma Buffer_new_base64 (env : Platform) (b : bytes) :
  Buffer_new env (JStr (Base64.encode b)) base64 = Ok b.
Proof. cbn [Buffer_new]. now rewrite Base64_decode_encode. Qed.

Lemma Buffer_new_hex (env : Platform) (b : bytes) :
  Buffer_new env (JStr (Hex.encode b)) hex = Ok b.
Proof.
  cbn [Buffer_new]. rewrite Hex_encode_even, andb_false_r.
  now rewrite Hex_decode_encode.
Qed.

Lemma keyMarshal_Public (data : bytes) :
  keyMarshal data "Public" =
  JBuf (pbCrypto.PublicKey.encode {| pbCrypto.Type_ := pbCrypto.RSA; pbCrypto.Data := data |}).
Proof. reflexivity. Qed.

Lemma keyMarshal_Private (data : bytes) :
  keyMarshal data "Private" =
  JBuf (pbCrypto.PrivateKey.encode {| pbCrypto.Type_ := pbCrypto.RSA; pbCrypto.Data := data |}).
Proof. reflexivity. Qed.

Lemma formatKey_Public (env : Platform) (key : Asn1 env) :
  formatKey env key "Public" =
  Ok (Base64.encode (pbCrypto.PublicKey.encode
                       {| pbCrypto.Type_ := pbCrypto.RSA; pbCrypto.Data := toDer env key |})).
Proof. reflexivity. Qed.

Lemma formatKey_Private (env : Platform) (key : Asn1 env) :
  formatKey env key "Private" =
  Ok (Base64.encode (pbCrypto.PrivateKey.encode
                       {| pbCrypto.Type_ := pbCrypto.RSA; pbCrypto.Data := toDer env key |})).
Proof. reflexivity. Qed.

(** The record that wraps a DER string is longer than the string. *)
Lemma encode_message_length (r : pbCrypto.KeyRecord) :
  (List.length (pbCrypto.Data r) < List.length (pbCrypto.encode_message r))%nat.
Proof.
  unfold pbCrypto.encode_message. rewrite Varint_encode_key_Type.
  rewrite !length_app. simpl. lia.
Qed.

(** What [create] returns once the provider has produced a pair. *)
Lemma create_returns (env : Platform) (bits : option N) (pair : forge.KeyPair) :
  generateKeyPair env
    match bits with
    | Some b => if b =? 0 then 2048 else b
    | None => 2048
    end 65537 = Ok pair ->
  create env bits =
  Ok {| id := multihashing env
                (pbCrypto.PublicKey.encode
                   {| pbCrypto.Type_ := pbCrypto.RSA;
                      pbCrypto.Data := toDer env (publicKeyToAsn1 env (forge.publicKey pair)) |})
                "sha2-256";
        privKey := JBuf (pbCrypto.PrivateKey.encode
                           {| pbCrypto.Type_ := pbCrypto.RSA;
                              pbCrypto.Data := toDer env (privateKeyToAsn1 env (forge.privateKey pair)) |});
        pubKey := JBuf (pbCrypto.PublicKey.encode
                          {| pbCrypto.Type_ := pbCrypto.RSA;
                             pbCrypto.Data := toDer env (publicKeyToAsn1 env (forge.publicKey pair)) |}) |}.
Proof.
  intros H. unfold create. rewrite H. cbn [bind].
  rewrite formatKey_Public, formatKey_Private. cbn [bind].
  rewrite !Buffer_new_base64. reflexivity.
Qed.

(** C1: every identity that [create] returns has as its id the sha2-256
    multihash of the encoded public key record, the tagged record that
    [keyMarshal] builds around the DER form of the generated public key;
    the record is also what the identity stores as its public key, and it
    differs from the bare DER string. *)
Theorem create_id_hashes_public_record (env : Platform) (bits : option N) (I : PeerId) :
  create env bits = Ok I ->
  exists (pair : forge.KeyPair) (record : bytes),
    let der := toDer env (publicKeyToAsn1 env (forge.publicKey pair)) in
    generateKeyPair env
      match bits with
      | Some b => if b =? 0 then 2048 else b
      | None => 2048
      end 65537 = Ok pair /\
    keyMarshal der "Public" = JBuf record /\
    id I = multihashing env record "sha2-256" /\
    pubKey I = JBuf record /\
    record <> der.
Proof.
  intros H. pose proof H as H0. unfold create in H0. bind_inv H0. clear H0.
  rewrite (create_returns env bits a E) in H. injection H as <-.
  exists a. eexists. cbn zeta. rewrite keyMarshal_Public.
  split; [exact E|]. split; [reflexivity|]. cbn [id pubKey]. repeat split.
  intros Heq.
  pose proof (encode_message_length
                {| pbCrypto.Type_ := pbCrypto.RSA;
                   pbCrypto.Data := toDer env (publicKeyToAsn1 env (forge.publicKey a)) |}) as Hlen.
  unfold pbCrypto.PublicKey.encode in Heq. rewrite Heq in Hlen.
  cbn [pbCrypto.Data] in Hlen. lia.
Qed.

(** What [createFromPrivKey] has gone through when it returns: the input
    read as a buffer, the record decoded, the DER string parsed, the
    private key rebuilt, and the public record derived from it. *)
Lemma createFromPrivKey_Ok (env : Platform) (privKey0 : jsval) (I : PeerId) :
  createFromPrivKey env privKey0 = Ok I ->
  exists (buf : bytes) (mpk : pbCrypto.KeyRecord) (asnPriv : Asn1 env)
    (key : forge.PrivateKey),
    Buffer_new env privKey0 base64 = Ok buf /\
    keyUnmarshal buf = Ok mpk /\
    fromDer env (pbCrypto.Data mpk) = Ok asnPriv /\
    privateKeyFromAsn1 env asnPriv = Ok key /\
    let record :=
      pbCrypto.PublicKey.encode
        {| pbCrypto.Type_ := pbCrypto.RSA;
           pbCrypto.Data :=
             toDer env
               (publicKeyToAsn1 env (forge.setPublicKey (forge.n key) (forge.e key))) |} in
    I = {| id := multihashing env record "sha2-256";
           privKey := privKey0;
           pubKey := JBuf record |}.
Proof.
  intros H. unfold createFromPrivKey in H.
  bind_inv H. bind_inv H. bind_inv H. bind_inv H.
  rewrite formatKey_Public in H. cbn [bind] in H.
  rewrite !Buffer_new_base64 in H. cbn [bind] in H. injection H as <-.
  exists a, a0, a1, a2. repeat split; assumption.
Qed.

(** C2: when [createFromPrivKey] returns an identity for a private-key
    record, [createFromPubKey] on the encoded public record derived from
    the same key (the record built from the modulus and public exponent
    of the decoded private key), handed over as a buffer or as its base64
    text, returns an identity with the same id. *)
Theorem createFromPrivKey_createFromPubKey_same_id (env : Platform) (privKey0 : jsval)
  (I : PeerId) :
  createFromPrivKey env privKey0 = Ok I ->
  exists (buf : bytes) (mpk : pbCrypto.KeyRecord) (asnPriv : Asn1 env)
    (key : forge.PrivateKey) (record : bytes) (I' I'' : PeerId),
    Buffer_new env privKey0 base64 = Ok buf /\
    keyUnmarshal buf = Ok mpk /\
    fromDer env (pbCrypto.Data mpk) = Ok asnPriv /\
    privateKeyFromAsn1 env asnPriv = Ok key /\
    keyMarshal
      (toDer env (publicKeyToAsn1 env (forge.setPublicKey (forge.n key) (forge.e key))))
      "Public"
    = JBuf record /\
    createFromPubKey env (JBuf record) = Ok I' /\ id I' = id I /\
    createFromPubKey env (JStr (Base64.encode record)) = Ok I'' /\ id I'' = id I.
Proof.
  intros H. apply createFromPrivKey_Ok in H.
  destruct H as [buf [mpk [asnPriv [key [H1 [H2 [H3 [H4 H]]]]]]]]. cbn zeta in H. subst I.
  cbn [id]. exists buf, mpk, asnPriv, key. eexists. unfold createFromPubKey.
  rewrite Buffer_new_base64. cbn [Buffer_new bind].
  do 2 eexists. rewrite keyMarshal_Public. repeat split; assumption.
Qed.

(** C3, as the code has it: for either type name and any payload, the
    empty one included, [keyUnmarshal] applied to what [keyMarshal] built
    returns the record whose type tag is [RSA] and whose data is the
    payload.  The type name is not part of the record. *)
Theorem keyUnmarshal_keyMarshal (p : bytes) (t : string) :
  t = "Public"%string \/ t = "Private"%string ->
  exists epb : bytes,
    keyMarshal p t = JBuf epb /\
    keyUnmarshal epb = Ok {| pbCrypto.Type_ := pbCrypto.RSA; pbCrypto.Data := p |}.
Proof.
  intros [-> | ->]; eexists; (split; [reflexivity|]); apply decode_encode_message.
Qed.

(** C3 as stated fails: the two type names give the same bytes, so
    however the decoded type tag is read as a name, the decoder cannot
    return the name that was given to the encoder. *)
Lemma keyUnmarshal_keyMarshal_type_lost :
  ~ exists name : pbCrypto.KeyType -> string,
      forall t : string, t = "Public"%string \/ t = "Private"%string ->
        exists (epb : bytes) (r : pbCrypto.KeyRecord),
          keyMarshal [] t = JBuf epb /\ keyUnmarshal epb = Ok r /\
          (name (pbCrypto.Type_ r), pbCrypto.Data r) = (t, []).
Proof.
  intros [name H].
  destruct (H "Public"%string (or_introl eq_refl)) as [e1 [r1 [M1 [U1 P1]]]].
  destruct (H "Private"%string (or_intror eq_refl)) as [e2 [r2 [M2 [U2 P2]]]].
  assert (E : JBuf e1 = JBuf e2) by (rewrite <- M1, <- M2; reflexivity).
  injection E as ->.
  rewrite U1 in U2. injection U2 as <-.
  rewrite P1 in P2. discriminate.
Qed.

(** C4: given a buffer, [createFromPubKey] returns the identity whose id
    is the sha2-256 multihash of exactly those bytes, whatever they are,
    whose public key is the given buffer and whose private key is
    [null]. *)
Theorem createFromPubKey_hashes_given_bytes (env : Platform) (record : bytes) :
  createFromPubKey env (JBuf record) =
  Ok {| id := multihashing env record "sha2-256"; privKey := JNull; pubKey := JBuf record |}.
Proof. reflexivity. Qed.

(** Given a string, [createFromPubKey] hashes the bytes that the string
    stands for in base64 and stores the string. *)
Lemma createFromPubKey_string (env : Platform) (s : string) :
  createFromPubKey env (JStr s) =
  Ok {| id := multihashing env (Base64.decode s) "sha2-256";
        privKey := JNull;
        pubKey := JStr s |}.
Proof. reflexivity. Qed.

(** C5: when [createFromPrivKey] returns an identity, its private key is
    the caller's input as it came, and its public key is the record
    newly encoded from the public key that was rebuilt from the modulus
    and public exponent of the decoded private key. *)
Theorem createFromPrivKey_keeps_input (env : Platform) (privKey0 : jsval) (I : PeerId) :
  createFromPrivKey env privKey0 = Ok I ->
  privKey I = privKey0 /\
  exists (buf : bytes) (mpk : pbCrypto.KeyRecord) (asnPriv : Asn1 env)
    (key : forge.PrivateKey),
    Buffer_new env privKey0 base64 = Ok buf /\
    keyUnmarshal buf = Ok mpk /\
    fromDer env (pbCrypto.Data mpk) = Ok asnPriv /\
    privateKeyFromAsn1 env asnPriv = Ok key /\
    keyMarshal
      (toDer env (publicKeyToAsn1 env (forge.setPublicKey (forge.n key) (forge.e key))))
      "Public"
    = pubKey I.
Proof.
  intros H. apply createFromPrivKey_Ok in H.
  destruct H as [buf [mpk [asnPriv [key [H1 [H2 [H3 [H4 H]]]]]]]]. cbn zeta in H. subst I.
  split; [reflexivity|]. exists buf, mpk, asnPriv, key. repeat split; assumption.
Qed.

(** C10: an identity that [createFromPrivKey] built from a string holds
    that string as its private key, and the [privKey] field of its
    [toJSON] is the string itself; the other two fields are hex text. *)
Theorem createFromPrivKey_toJSON_privKey (env : Platform) (s : string) (I : PeerId) :
  createFromPrivKey env (JStr s) = Ok I ->
  privKey I = JStr s /\
  exists record : bytes,
    pubKey I = JBuf record /\
    toJSON I = Ok {| JSON.id := Hex.encode (id I);
                     JSON.privKey := s;
                     JSON.pubKey := Hex.encode record |}.
Proof.
  intros H. apply createFromPrivKey_Ok in H.
  destruct H as [buf [mpk [asnPriv [key [_ [_ [_ [_ H]]]]]]]]. cbn zeta in H. subst I.
  split; [reflexivity|]. eexists. split; reflexivity.
Qed.

(** An identity whose three fields are buffers comes back from its JSON
    form unchanged. *)
Lemma createFromJSON_toJSON_buffers (env : Platform) (i k u : bytes) :
  exists j : JSON.t,
    toJSON {| id := i; privKey := JBuf k; pubKey := JBuf u |} = Ok j /\
    createFromJSON env j = Ok {| id := i; privKey := JBuf k; pubKey := JBuf u |}.
Proof.
  eexists. split; [reflexivity|].
  unfold createFromJSON. cbn [JSON.id JSON.privKey JSON.pubKey].
  rewrite !Buffer_new_hex. reflexivity.
Qed.

(** C6 at an identity built by [createFromPrivKey] from a string: the
    identity has id, private key and public key, its [toJSON] succeeds,
    and [createFromJSON] on the result either throws or returns as
    private key the bytes that the hex decoder reads off the front of the
    base64 text, not the identity's private key. *)
Theorem createFromJSON_toJSON_after_createFromPrivKey (env : Platform) (s : string)
  (I : PeerId) :
  createFromPrivKey env (JStr s) = Ok I ->
  privKey I = JStr s /\
  exists j : JSON.t,
    toJSON I = Ok j /\
    createFromJSON env j =
    if hexOddThrows env && Nat.odd (String.length s) then Err EncodingError
    else Ok {| id := id I; privKey := JBuf (Hex.decode_prefix s); pubKey := pubKey I |}.
Proof.
  intros H. apply createFromPrivKey_Ok in H.
  destruct H as [buf [mpk [asnPriv [key [_ [_ [_ [_ H]]]]]]]]. cbn zeta in H. subst I.
  split; [reflexivity|]. eexists. split; [reflexivity|].
  unfold createFromJSON. cbn [JSON.id JSON.privKey JSON.pubKey id privKey pubKey].
  rewrite !Buffer_new_hex. cbn [bind Buffer_new].
  destruct (hexOddThrows env && Nat.odd (String.length s)); reflexivity.
Qed.

(** C7, as the code has it: [keyUnmarshal] fails with FormatError when,
    after any run of whole fields, its input carries a type tag that is
    not a known key type, and when its input is a run of whole fields
    that lacks the [Type] field or the [Data] field, as the empty input
    and a record cut before its [Data] field are. *)
Theorem keyUnmarshal_refused (buf : bytes) :
  pbCrypto.refused buf -> keyUnmarshal buf = Err FormatError.
Proof. apply decode_message_refused. Qed.

(** C8, as the code has it: [createFromB58String] fails with
    EncodingError on every string that holds a character outside the
    base58 alphabet; [createFromHexString] does not fail on a string of
    even length, whatever its characters: it returns the identity whose
    id is what the hex decoder reads off the front of the string. *)
Theorem createFromB58String_rejects_createFromHexString_accepts (env : Platform)
  (s : string) :
  ((exists c : ascii, In c (list_ascii_of_string s) /\ ~ In c Base58.alphabet) ->
   createFromB58String s = Err EncodingError) /\
  (Nat.odd (String.length s) = false ->
   createFromHexString env s =
   Ok {| id := Hex.decode_prefix s; privKey := JUndefined; pubKey := JUndefined |}).
Proof.
  split.
  - intros [c [Hin Hout]]. unfold createFromB58String.
    now rewrite (Base58_decode_outside s c Hin Hout).
  - intros Hodd. unfold createFromHexString. cbn [Buffer_new].
    now rewrite Hodd, andb_false_r.
Qed.

(** The hex decoder stops at the first pair that holds a character that
    is not a hex digit, and keeps what it has read. *)
Lemma Hex_decode_stops (b : bytes) (c1 c2 : ascii) (rest : list ascii) :
  Hex.is_digit c1 && Hex.is_digit c2 = false ->
  Hex.decode_list (Hex.encode_list b ++ c1 :: c2 :: rest) = b.
Proof.
  intros Hbad. induction b as [|x b IH].
  - cbn [Hex.encode_list flat_map app Hex.decode_list].
    unfold Hex.is_digit in Hbad.
    destruct (Hex.hex2bin c1); [destruct (Hex.hex2bin c2); [discriminate|]|]; reflexivity.
  - unfold Hex.encode_list in *. cbn [flat_map]. cbn [app].
    now rewrite Hex_decode_pair, IH.
Qed.

(** C9: for every identity, [createFromB58String] on its base58 text
    returns an identity with the same bytes. *)
Theorem createFromB58String_toB58String (I : PeerId) :
  exists I' : PeerId,
    createFromB58String (toB58String I) = Ok I' /\ toBytes I' = toBytes I.
Proof.
  unfold createFromB58String, toB58String. rewrite Base58_decode_encode.
  cbn [bind]. eexists. split; reflexivity.
Qed.

(** The same for the hex text. *)
Lemma createFromHexString_toHexString (env : Platform) (I : PeerId) :
  exists I' : PeerId,
    createFromHexString env (toHexString I) = Ok I' /\ toBytes I' = toBytes I.
Proof.
  unfold createFromHexString, toHexString. rewrite Buffer_new_hex.
  cbn [bind]. eexists. split; reflexivity.
Qed.

(** * The statements at work on concrete inputs *)

Lemma create_id_hashes_public_record_witness :
  create (Sample.platform false) None = Ok Sample.created /\
  exists (pair : forge.KeyPair) (record : bytes),
    let der := Sample.toDer (Sample.publicKeyToAsn1 (forge.publicKey pair)) in
    Sample.generateKeyPair 2048 65537 = Ok pair /\
    keyMarshal der "Public" = JBuf record /\
    id Sample.created = Sample.multihashing record "sha2-256" /\
    pubKey Sample.created = JBuf record /\
    record <> der.
Proof.
  split; [vm_compute; reflexivity|].
  apply (create_id_hashes_public_record (Sample.platform false) None Sample.created).
  vm_compute. reflexivity.
Defined.

Lemma createFromPrivKey_createFromPubKey_same_id_witness :
  createFromPrivKey (Sample.platform false) (JStr Sample.privRecord64) = Ok Sample.identity /\
  exists (buf : bytes) (mpk : pbCrypto.KeyRecord) (asnPriv : Sample.Asn1)
    (key : forge.PrivateKey) (record : bytes) (I' I'' : PeerId),
    Buffer_new (Sample.platform false) (JStr Sample.privRecord64) base64 = Ok buf /\
    keyUnmarshal buf = Ok mpk /\
    Sample.fromDer (pbCrypto.Data mpk) = Ok asnPriv /\
    Sample.privateKeyFromAsn1 asnPriv = Ok key /\
    keyMarshal
      (Sample.toDer
         (Sample.publicKeyToAsn1 (forge.setPublicKey (forge.n key) (forge.e key))))
      "Public"
    = JBuf record /\
    createFromPubKey (Sample.platform false) (JBuf record) = Ok I' /\
    id I' = id Sample.identity /\
    createFromPubKey (Sample.platform false) (JStr (Base64.encode record)) = Ok I'' /\
    id I'' = id Sample.identity.
Proof.
  split; [vm_compute; reflexivity|].
  apply (createFromPrivKey_createFromPubKey_same_id
           (Sample.platform false) (JStr Sample.privRecord64) Sample.identity).
  vm_compute. reflexivity.
Defined.

Lemma keyUnmarshal_keyMarshal_witness :
  ("Private"%string = "Public"%string \/ "Private"%string = "Private"%string) /\
  exists epb : bytes,
    keyMarshal [] "Private" = JBuf epb /\
    keyUnmarshal epb = Ok {| pbCrypto.Type_ := pbCrypto.RSA; pbCrypto.Data := [] |}.
Proof.
  split; [right; reflexivity|].
  apply (keyUnmarshal_keyMarshal [] "Private"). right. reflexivity.
Defined.

Lemma createFromPrivKey_keeps_input_witness :
  createFromPrivKey (Sample.platform false) (JStr Sample.privRecord64) = Ok Sample.identity /\
  privKey Sample.identity = JStr Sample.privRecord64 /\
  exists (buf : bytes) (mpk : pbCrypto.KeyRecord) (asnPriv : Sample.Asn1)
    (key : forge.PrivateKey),
    Buffer_new (Sample.platform false) (JStr Sample.privRecord64) base64 = Ok buf /\
    keyUnmarshal buf = Ok mpk /\
    Sample.fromDer (pbCrypto.Data mpk) = Ok asnPriv /\
    Sample.privateKeyFromAsn1 asnPriv = Ok key /\
    keyMarshal
      (Sample.toDer
         (Sample.publicKeyToAsn1 (forge.setPublicKey (forge.n key) (forge.e key))))
      "Public"
    = pubKey Sample.identity.
Proof.
  split; [vm_compute; reflexivity|].
  apply (createFromPrivKey_keeps_input
           (Sample.platform false) (JStr Sample.privRecord64) Sample.identity).
  vm_compute. reflexivity.
Defined.

Lemma createFromPrivKey_toJSON_privKey_witness :
  createFromPrivKey (Sample.platform false) (JStr Sample.privRecord64) = Ok Sample.identity /\
  privKey Sample.identity = JStr Sample.privRecord64 /\
  exists record : bytes,
    pubKey Sample.identity = JBuf record /\
    toJSON Sample.identity =
    Ok {| JSON.id := Hex.encode (id Sample.identity);
          JSON.privKey := Sample.privRecord64;
          JSON.pubKey := Hex.encode record |}.
Proof.
  split; [vm_compute; reflexivity|].
  apply (createFromPrivKey_toJSON_privKey
           (Sample.platform false) Sample.privRecord64 Sample.identity).
  vm_compute. reflexivity.
Defined.

(** The private key that comes back through JSON is the one octet [ca],
    read off the first two characters of the base64 text; the text
    itself stands for the eight octets of the private record. *)
Lemma createFromJSON_toJSON_after_createFromPrivKey_witness :
  createFromPrivKey (Sample.platform false) (JStr Sample.privRecord64) = Ok Sample.identity /\
  Base64.decode Sample.privRecord64 = [x08; x00; x12; x04; x30; x21; x03; x07] /\
  privKey Sample.identity = JStr Sample.privRecord64 /\
  exists j : JSON.t,
    toJSON Sample.identity = Ok j /\
    createFromJSON (Sample.platform false) j =
    Ok {| id := id Sample.identity; privKey := JBuf [xca]; pubKey := pubKey Sample.identity |}.
Proof.
  split; [vm_compute; reflexivity|]. split; [vm_compute; reflexivity|].
  apply (createFromJSON_toJSON_after_createFromPrivKey
           (Sample.platform false) Sample.privRecord64 Sample.identity).
  vm_compute. reflexivity.
Defined.

Lemma keyUnmarshal_refused_witness :
  pbCrypto.refused [x08; x07; x12; x00] /\
  keyUnmarshal [x08; x07; x12; x00] = Err FormatError.
Proof.
  assert (H : pbCrypto.refused [x08; x07; x12; x00]).
  { apply (pbCrypto.unknown_type [] 7 [x12; x00]). reflexivity. }
  split; [exact H|].
  apply (keyUnmarshal_refused [x08; x07; x12; x00]). exact H.
Defined.

(** C7 as stated fails: [keyUnmarshal] returns a record on a record cut
    inside its [Data] field (five bytes announced, one present), on a
    record followed by a field that the schema does not name, and on a
    record whose [Type] field carries the wire type of a byte string. *)
Lemma keyUnmarshal_accepts_malformed :
  (pbCrypto.malformed [x08; x00; x12; x05; x30] /\
   keyUnmarshal [x08; x00; x12; x05; x30]
   = Ok {| pbCrypto.Type_ := pbCrypto.RSA; pbCrypto.Data := [x30] |}) /\
  (pbCrypto.malformed [x08; x00; x12; x00; x18; x01] /\
   keyUnmarshal [x08; x00; x12; x00; x18; x01]
   = Ok {| pbCrypto.Type_ := pbCrypto.RSA; pbCrypto.Data := [] |}) /\
  (pbCrypto.malformed [x0a; x00; x12; x00] /\
   keyUnmarshal [x0a; x00; x12; x00]
   = Ok {| pbCrypto.Type_ := pbCrypto.RSA; pbCrypto.Data := [] |}).
Proof.
  repeat split.
  - apply (pbCrypto.cut_record
             {| pbCrypto.Type_ := pbCrypto.RSA;
                pbCrypto.Data := [x30; x00; x00; x00; x00] |}
             [x08; x00; x12; x05; x30] [x00; x00; x00; x00]);
      [reflexivity|discriminate].
  - apply (pbCrypto.bad_field [pbCrypto.FType pbCrypto.RSA; pbCrypto.FData []]
             24 [x18; x01] [x01]); [reflexivity|discriminate|discriminate].
  - apply (pbCrypto.bad_field [] 10 [x0a; x00; x12; x00] [x00; x12; x00]);
      [reflexivity|discriminate|discriminate].
Qed.

Lemma createFromB58String_rejects_createFromHexString_accepts_witness :
  (exists c : ascii, In c (list_ascii_of_string "zz0O") /\ ~ In c Base58.alphabet) /\
  createFromB58String "zz0O" = Err EncodingError /\
  Nat.odd (String.length "zz0O") = false /\
  createFromHexString (Sample.platform true) "zz0O" =
  Ok {| id := []; privKey := JUndefined; pubKey := JUndefined |}.
Proof.
  assert (H : exists c : ascii, In c (list_ascii_of_string "zz0O") /\ ~ In c Base58.alphabet).
  { exists "0"%char. split; [simpl; tauto|].
    intros Hin. vm_compute in Hin.
    repeat (destruct Hin as [Hin|Hin]; [discriminate|]). exact Hin. }
  split; [exact H|].
  destruct (createFromB58String_rejects_createFromHexString_accepts
              (Sample.platform true) "zz0O") as [Hb Hh].
  split; [exact (Hb H)|]. split; [reflexivity|]. exact (Hh eq_refl).
Defined.

(** C8 as stated fails: [z] is not a hex digit, and [createFromHexString]
    returns an identity for the text [zz], under either behaviour of the
    runtime. *)
Lemma createFromHexString_accepts_invalid_digits :
  Hex.is_digit "z" = false /\
  createFromHexString (Sample.platform true) "zz" =
  Ok {| id := []; privKey := JUndefined; pubKey := JUndefined |} /\
  createFromHexString (Sample.platform false) "zz" =
  Ok {| id := []; privKey := JUndefined; pubKey := JUndefined |}.
Proof. repeat split. Qed.

(** * Further properties of the module *)

(** ** Text forms read back *)

Lemma Base58_index_from_spec (c : ascii) (l : list ascii) (i d : N) :
  Base58.index_from c l i = Some d ->
  i <= d /\ (N.to_nat (d - i) < List.length l)%nat /\ nth (N.to_nat (d - i)) l "1"%char = c.
Proof.
  revert i. induction l as [|a l IH]; intros i H; [discriminate|].
  cbn [Base58.index_from] in H. destruct (Ascii.eqb c a) eqn:E.
  - apply Ascii.eqb_eq in E. injection H as <-. subst a.
    rewrite N.sub_diag. simpl. repeat split; lia.
  - apply IH in H. destruct H as [H1 [H2 H3]].
    replace (N.to_nat (d - i)) with (S (N.to_nat (d - (i + 1)))) by lia.
    simpl. repeat split; [lia|lia|exact H3].
Qed.

Lemma Base58_char_index (c : ascii) (d : N) :
  Base58.index c = Some d -> d < 58 /\ Base58.char d = c.
Proof.
  intros H. apply Base58_index_from_spec in H. destruct H as [_ [H2 H3]].
  rewrite N.sub_0_r in *. split; [|exact H3].
  change (List.length Base58.alphabet) with 58%nat in H2. lia.
Qed.

Lemma Base58_chars_indices (s : list ascii) (ds : list N) :
  Base58.indices s = Some ds -> Forall (fun d => d < 58) ds /\ map Base58.char ds = s.
Proof.
  revert ds. induction s as [|c s IH]; intros ds H.
  - injection H as <-. split; [constructor|reflexivity].
  - cbn [Base58.indices] in H.
    destruct (Base58.index c) as [d|] eqn:E; [|discriminate].
    destruct (Base58.indices s) as [ds'|]; [|discriminate].
    injection H as <-. destruct (IH ds' eq_refl) as [H1 H2].
    apply Base58_char_index in E. destruct E as [Hd Hc].
    split; [constructor; assumption|]. cbn [map]. now rewrite Hc, H2.
Qed.

Lemma Base58_decode_digits_range (ds : list N) :
  Forall (fun d => d < 256) (Base58.decode_digits ds).
Proof.
  unfold Base58.decode_digits. apply Forall_app. split.
  - apply Forall_repeat_0. lia.
  - apply (Radix_digits_canonical 256); lia.
Qed.

Lemma Base58_encode_decode_digits (ds : list N) :
  Forall (fun d => d < 58) ds -> Base58.encode_digits (Base58.decode_digits ds) = ds.
Proof.
  intros Hds. unfold Base58.decode_digits, Base58.encode_digits.
  destruct (Radix_digits_canonical 256 ltac:(lia) (Radix.value 58 ds)) as [_ Hlead].
  rewrite Radix_leading_zeros_repeat, Hlead, Nat.add_0_r.
  rewrite Radix_value_zeros, (Radix_value_digits 256) by lia.
  destruct (Radix_split 58 ds Hds) as [tl [Heq Hc]].
  rewrite Heq at 2 3. rewrite Radix_value_zeros.
  now rewrite (Radix_digits_value 58) by (lia || assumption).
Qed.

Lemma map_to_N_byte_of_N (l : list N) :
  Forall (fun d => d < 256) l -> map Byte.to_N (map byte_of_N l) = l.
Proof.
  induction 1 as [|d l Hd _ IH]; [reflexivity|].
  cbn [map]. now rewrite byte_to_of_N, N.mod_small, IH.
Qed.

(** A text that the base58 decoder accepts is the encoding of what it
    decodes to. *)
Lemma Base58_encode_decode (s : string) (b : bytes) :
  Base58.decode s = Ok b -> Base58.encode b = s.
Proof.
  unfold Base58.decode, Base58.encode. intros H.
  destruct (Base58.indices (list_ascii_of_string s)) as [ds|] eqn:E; [|discriminate].
  injection H as <-. apply Base58_chars_indices in E. destruct E as [Hr Hs].
  rewrite map_to_N_byte_of_N by apply Base58_decode_digits_range.
  rewrite Base58_encode_decode_digits by assumption.
  now rewrite Hs, string_of_list_ascii_of_string.
Qed.

Lemma Hex_digit_value (c : ascii) :
  In c Hex.alphabet ->
  match Hex.hex2bin c with
  | Some x => x < 16 /\ Hex.digit x = c
  | None => False
  end.
Proof.
  intros H. simpl in H.
  repeat (destruct H as [<- | H]; [vm_compute; split; reflexivity|]).
  contradiction.
Qed.

Lemma Hex_encode_pair (x y : N) :
  x < 16 -> y < 16 -> Hex.encode_list [byte_of_N (x * 16 + y)] = [Hex.digit x; Hex.digit y].
Proof.
  intros Hx Hy. unfold Hex.encode_list. cbn [flat_map app].
  rewrite byte_to_of_N.
  replace ((x * 16 + y) mod 256 / 16) with x by lia.
  replace ((x * 16 + y) mod 256 mod 16) with y by lia.
  reflexivity.
Qed.

Lemma list_ind2 {A : Type} (P : list A -> Prop) :
  P [] -> (forall a, P [a]) -> (forall a b l, P l -> P (a :: b :: l)) ->
  forall l, P l.
Proof.
  intros H0 H1 H2 l.
  assert (H : P l /\ forall a, P (a :: l)).
  { induction l as [|x l [IH0 IH1]]; auto. }
  apply H.
Qed.

(** Lower-case hex text of even length is the encoding of what it decodes
    to. *)
Lemma Hex_encode_decode_list (s : list ascii) :
  Forall (fun c => In c Hex.alphabet) s -> Nat.odd (List.length s) = false ->
  Hex.encode_list (Hex.decode_list s) = s.
Proof.
  induction s as [| a | a b s IH] using list_ind2; intros Hall Hlen.
  - reflexivity.
  - discriminate.
  - inversion Hall as [|? ? Ha Hall1]; subst.
    inversion Hall1 as [|? ? Hb Hall2]; subst.
    apply Hex_digit_value in Ha. apply Hex_digit_value in Hb.
    cbn [Hex.decode_list].
    destruct (Hex.hex2bin a) as [x|]; [|contradiction].
    destruct (Hex.hex2bin b) as [y|]; [|contradiction].
    destruct Ha as [Hx <-]. destruct Hb as [Hy <-].
    change (byte_of_N (x * 16 + y) :: Hex.decode_list s)
      with ([byte_of_N (x * 16 + y)] ++ Hex.decode_list s).
    unfold Hex.encode_list in *. rewrite flat_map_app.
    fold (Hex.encode_list [byte_of_N (x * 16 + y)]).
    rewrite Hex_encode_pair by assumption.
    rewrite IH; [reflexivity|assumption|].
    cbn [List.length] in Hlen. now rewrite Nat.odd_succ_succ in Hlen.
Qed.

(** X1: reading back the hex text or the base58 text of any identity
    returns the identity that [createFromBytes] builds from its bytes:
    the id comes back byte for byte, the keys are not carried. *)
Theorem text_forms_return_id_only (env : Platform) (I : PeerId) :
  createFromHexString env (toHexString I) = createFromBytes (toBytes I) /\
  createFromB58String (toB58String I) = createFromBytes (toBytes I).
Proof.
  split.
  - unfold createFromHexString, toHexString. now rewrite Buffer_new_hex.
  - unfold createFromB58String, toB58String. now rewrite Base58_decode_encode.
Qed.

(** X2: two identities with the same hex text, or the same base58 text,
    have the same bytes, whatever their keys are. *)
Theorem text_forms_identify_id (I J : PeerId) :
  toHexString I = toHexString J \/ toB58String I = toB58String J ->
  toBytes I = toBytes J.
Proof.
  unfold toHexString, toB58String, toBytes. intros [H | H].
  - rewrite <- (Hex_decode_encode (id I)), H. apply Hex_decode_encode.
  - pose proof (Base58_decode_encode (id I)) as HI.
    rewrite H, Base58_decode_encode in HI. now injection HI as <-.
Qed.

(** X3: when [createFromB58String] returns an identity, the base58 text
    of that identity is the string that was given. *)
Theorem createFromB58String_canonical (str : string) (I : PeerId) :
  createFromB58String str = Ok I -> toB58String I = str.
Proof.
  unfold createFromB58String, toB58String. intros H.
  destruct (Base58.decode str) as [b|] eqn:E; [|discriminate].
  injection H as <-. now apply Base58_encode_decode.
Qed.

(** X4: on a string of even length made of lower-case hex digits,
    [createFromHexString] returns an identity whose hex text is that
    string. *)
Theorem createFromHexString_lowercase (env : Platform) (str : string) :
  Forall (fun c => In c Hex.alphabet) (list_ascii_of_string str) ->
  Nat.odd (String.length str) = false ->
  exists I : PeerId, createFromHexString env str = Ok I /\ toHexString I = str.
Proof.
  intros Hall Hlen. unfold createFromHexString. cbn [Buffer_new].
  rewrite Hlen, andb_false_r. cbn [bind]. eexists. split; [reflexivity|].
  unfold toHexString, Hex.encode, Hex.decode_prefix. cbn [id].
  rewrite Hex_encode_decode_list; [apply string_of_list_ascii_of_string|assumption|].
  pose proof (string_length_of_list (list_ascii_of_string str)) as HL.
  rewrite string_of_list_ascii_of_string in HL. now rewrite <- HL.
Qed.

(** X5: an identity built from bytes, from hex or base58 text, or from a
    public key has no private key, and its [toJSON] and [toPrint] throw a
    TypeError. *)
Theorem toJSON_throws_without_keys (env : Platform) (I : PeerId) :
  (exists buf, createFromBytes buf = Ok I) \/
  (exists str, createFromHexString env str = Ok I) \/
  (exists str, createFromB58String str = Ok I) \/
  (exists pubKey0, createFromPubKey env pubKey0 = Ok I) ->
  toJSON I = Err TypeError /\ toPrint I = Err TypeError.
Proof.
  intros [[buf H] | [[str H] | [[str H] | [pubKey0 H]]]].
  - injection H as <-. split; reflexivity.
  - unfold createFromHexString in H.
    destruct (Buffer_new env (JStr str) hex); [|discriminate].
    injection H as <-. split; reflexivity.
  - unfold createFromB58String in H.
    destruct (Base58.decode str); [|discriminate].
    injection H as <-. split; reflexivity.
  - unfold createFromPubKey in H.
    destruct (Buffer_new env pubKey0 base64); [|discriminate].
    injection H as <-. split; reflexivity.
Qed.

(** X6: an identity returned by [create], by [createFromPrivKey] from a
    buffer, or by [createFromJSON] comes back unchanged from
    [createFromJSON] applied to its [toJSON]. *)
Theorem key_identity_survives_JSON (env : Platform) (I : PeerId) :
  (exists bits, create env bits = Ok I) \/
  (exists buf, createFromPrivKey env (JBuf buf) = Ok I) \/
  (exists obj, createFromJSON env obj = Ok I) ->
  exists j : JSON.t, toJSON I = Ok j /\ createFromJSON env j = Ok I.
Proof.
  intros H.
  assert (Hshape : exists i k u, I = {| id := i; privKey := JBuf k; pubKey := JBuf u |}).
  { destruct H as [[bits H] | [[buf H] | [obj H]]].
    - pose proof H as H0. unfold create in H0. apply bind_Ok in H0.
      destruct H0 as [kp [E _]].
      rewrite (create_returns env bits kp E) in H. injection H as <-.
      do 3 eexists. reflexivity.
    - apply createFromPrivKey_Ok in H.
      destruct H as [b0 [mpk [asn [key [_ [_ [_ [_ H]]]]]]]]. cbn zeta in H. subst I.
      do 3 eexists. reflexivity.
    - unfold createFromJSON in H. bind_inv H. bind_inv H. bind_inv H.
      injection H as <-. do 3 eexists. reflexivity. }
  clear H. destruct Hshape as [i [k [u ->]]].
  eexists. split; [reflexivity|].
  unfold createFromJSON. cbn [JSON.id JSON.privKey JSON.pubKey].
  now rewrite !Buffer_new_hex.
Qed.

(** X7: [createFromPubKey] applied to the public key of an identity that
    [create] or [createFromPrivKey] returned gives the same id and the
    same public key, with a [null] private key. *)
Theorem createFromPubKey_reproduces_id (env : Platform) (I : PeerId) :
  (exists bits, create env bits = Ok I) \/
  (exists privKey0, createFromPrivKey env privKey0 = Ok I) ->
  createFromPubKey env (pubKey I) =
  Ok {| id := id I; privKey := JNull; pubKey := pubKey I |}.
Proof.
  intros [[bits H] | [privKey0 H]].
  - pose proof H as H0. unfold create in H0. apply bind_Ok in H0.
    destruct H0 as [pair [E _]].
    rewrite (create_returns env bits pair E) in H. injection H as <-. reflexivity.
  - apply createFromPrivKey_Ok in H.
    destruct H as [b0 [mpk [asn [key [_ [_ [_ [_ H]]]]]]]]. cbn zeta in H. subst I.
    reflexivity.
Qed.

Lemma keyUnmarshal_encode (r : pbCrypto.KeyRecord) :
  keyUnmarshal (pbCrypto.encode_message r) = Ok r.
Proof. apply decode_encode_message. Qed.

(** What [createFromPrivKey] returns once the four fallible steps have
    gone through. *)
Lemma createFromPrivKey_returns (env : Platform) (privKey0 : jsval) (buf : bytes)
  (mpk : pbCrypto.KeyRecord) (asnPriv : Asn1 env) (key : forge.PrivateKey) :
  Buffer_new env privKey0 base64 = Ok buf ->
  keyUnmarshal buf = Ok mpk ->
  fromDer env (pbCrypto.Data mpk) = Ok asnPriv ->
  privateKeyFromAsn1 env asnPriv = Ok key ->
  createFromPrivKey env privKey0 =
  Ok {| id := multihashing env
                (pbCrypto.PublicKey.encode
                   {| pbCrypto.Type_ := pbCrypto.RSA;
                      pbCrypto.Data :=
                        toDer env
                          (publicKeyToAsn1 env
                             (forge.setPublicKey (forge.n key) (forge.e key))) |})
                "sha2-256";
        privKey := privKey0;
        pubKey := JBuf (pbCrypto.PublicKey.encode
                          {| pbCrypto.Type_ := pbCrypto.RSA;
                             pbCrypto.Data :=
                               toDer env
                                 (publicKeyToAsn1 env
                                    (forge.setPublicKey (forge.n key) (forge.e key))) |}) |}.
Proof.
  intros H1 H2 H3 H4. unfold createFromPrivKey.
  rewrite H1. cbn [bind]. rewrite H2. cbn [bind]. rewrite H3. cbn [bind].
  rewrite H4. cbn [bind]. rewrite formatKey_Public. cbn [bind].
  rewrite !Buffer_new_base64. reflexivity.
Qed.

(** X8: when the provider reads back the DER form of the private key it
    generated, and the public key rebuilt from that reading has the same
    ASN.1 form as the generated public key, [createFromPrivKey] applied
    to the private key of the identity that [create] returns gives that
    same identity. *)
Theorem createFromPrivKey_after_create (env : Platform) (bits : option N)
  (pair : forge.KeyPair) (asnPriv : Asn1 env) (key : forge.PrivateKey) :
  generateKeyPair env
    match bits with
    | Some b => if b =? 0 then 2048 else b
    | None => 2048
    end 65537 = Ok pair ->
  fromDer env (toDer env (privateKeyToAsn1 env (forge.privateKey pair))) = Ok asnPriv ->
  privateKeyFromAsn1 env asnPriv = Ok key ->
  publicKeyToAsn1 env (forge.setPublicKey (forge.n key) (forge.e key))
  = publicKeyToAsn1 env (forge.publicKey pair) ->
  exists I : PeerId,
    create env bits = Ok I /\ createFromPrivKey env (privKey I) = Ok I.
Proof.
  intros Hgen Hder Hkey Hpub. eexists. split; [exact (create_returns env bits pair Hgen)|].
  cbn [privKey].
  rewrite (createFromPrivKey_returns env
             (JBuf (pbCrypto.PrivateKey.encode
                      {| pbCrypto.Type_ := pbCrypto.RSA;
                         pbCrypto.Data :=
                           toDer env (privateKeyToAsn1 env (forge.privateKey pair)) |}))
             _ _ asnPriv key eq_refl (keyUnmarshal_encode _) Hder Hkey).
  now rewrite Hpub.
Qed.

(** X9: a private-key record handed to [createFromPrivKey] as base64
    text gives the same id and the same public key as the record handed
    over as a buffer; only the stored private key differs, being the
    text in one case and the buffer in the other. *)
Theorem createFromPrivKey_text_or_buffer (env : Platform) (buf : bytes) (I : PeerId) :
  createFromPrivKey env (JBuf buf) = Ok I ->
  privKey I = JBuf buf /\
  createFromPrivKey env (JStr (Base64.encode buf)) =
  Ok {| id := id I; privKey := JStr (Base64.encode buf); pubKey := pubKey I |}.
Proof.
  intros H. apply createFromPrivKey_Ok in H.
  destruct H as [b0 [mpk [asn [key [H1 [H2 [H3 [H4 H]]]]]]]]. cbn zeta in H. subst I.
  split; [reflexivity|]. cbn [Buffer_new] in H1. injection H1 as <-.
  rewrite (createFromPrivKey_returns env _ buf mpk asn key
             (Buffer_new_base64 env buf) H2 H3 H4).
  reflexivity.
Qed.

(** X10: given the base64 text of a byte string, [createFromPubKey]
    returns the id that it returns for the byte string itself, the hash
    of those bytes, and stores the text as the public key. *)
Theorem createFromPubKey_text (env : Platform) (buf : bytes) :
  createFromPubKey env (JStr (Base64.encode buf)) =
  Ok {| id := multihashing env buf "sha2-256";
        privKey := JNull;
        pubKey := JStr (Base64.encode buf) |}.
Proof. unfold createFromPubKey. now rewrite Buffer_new_base64. Qed.

(** X11: [createFromPrivKey] returns an identity exactly when its input
    reads as a buffer, the record decodes, the provider parses the DER
    string and rebuilds the private key; deriving, encoding and hashing
    the public record cannot fail after that. *)
Theorem createFromPrivKey_returns_iff (env : Platform) (privKey0 : jsval) (I : PeerId) :
  createFromPrivKey env privKey0 = Ok I <->
  exists (buf : bytes) (mpk : pbCrypto.KeyRecord) (asnPriv : Asn1 env)
    (key : forge.PrivateKey),
    Buffer_new env privKey0 base64 = Ok buf /\
    keyUnmarshal buf = Ok mpk /\
    fromDer env (pbCrypto.Data mpk) = Ok asnPriv /\
    privateKeyFromAsn1 env asnPriv = Ok key /\
    I = {| id := multihashing env
                   (pbCrypto.PublicKey.encode
                      {| pbCrypto.Type_ := pbCrypto.RSA;
                         pbCrypto.Data :=
                           toDer env
                             (publicKeyToAsn1 env
                                (forge.setPublicKey (forge.n key) (forge.e key))) |})
                   "sha2-256";
           privKey := privKey0;
           pubKey := JBuf (pbCrypto.PublicKey.encode
                             {| pbCrypto.Type_ := pbCrypto.RSA;
                                pbCrypto.Data :=
                                  toDer env
                                    (publicKeyToAsn1 env
                                       (forge.setPublicKey (forge.n key) (forge.e key))) |}) |}.
Proof.
  split.
  - intros H. apply createFromPrivKey_Ok in H.
    destruct H as [buf [mpk [asn [key [H1 [H2 [H3 [H4 H]]]]]]]].
    exists buf, mpk, asn, key. repeat split; assumption.
  - intros [buf [mpk [asn [key [H1 [H2 [H3 [H4 ->]]]]]]]].
    exact (createFromPrivKey_returns env privKey0 buf mpk asn key H1 H2 H3 H4).
Qed.

(** X12: [keyMarshal] builds a record for the two type names only; for
    any other name it returns [undefined], and [formatKey] then throws a
    TypeError instead of returning text. *)
Theorem formatKey_other_type (env : Platform) (key : Asn1 env) (data : bytes)
  (type : string) :
  type <> "Public"%string -> type <> "Private"%string ->
  keyMarshal data type = JUndefined /\ formatKey env key type = Err TypeError.
Proof.
  intros H1 H2. apply String.eqb_neq in H1. apply String.eqb_neq in H2.
  unfold formatKey, keyMarshal. rewrite H1, H2. split; reflexivity.
Qed.

(** X13: for either type name, the text that [formatKey] returns reads
    back, through [new Buffer(text, 'base64')] and [keyUnmarshal], as the
    RSA record that holds the DER bytes of the key. *)
Theorem formatKey_reads_back (env : Platform) (key : Asn1 env) (type : string) :
  type = "Public"%string \/ type = "Private"%string ->
  exists (text : string) (buf : bytes),
    formatKey env key type = Ok text /\
    Buffer_new env (JStr text) base64 = Ok buf /\
    keyUnmarshal buf = Ok {| pbCrypto.Type_ := pbCrypto.RSA; pbCrypto.Data := toDer env key |}.
Proof.
  intros [-> | ->].
  - rewrite formatKey_Public. do 2 eexists. split; [reflexivity|].
    split; [apply Buffer_new_base64|apply keyUnmarshal_encode].
  - rewrite formatKey_Private. do 2 eexists. split; [reflexivity|].
    split; [apply Buffer_new_base64|apply keyUnmarshal_encode].
Qed.

(** X14: [create] asks the provider for a pair of the given size, 2048
    bits when the size is missing or zero, with public exponent 65537;
    it fails exactly when the provider fails, with the provider's error,
    and otherwise returns the identity whose keys are the two encoded
    records, as buffers, and whose id is the hash of the public one. *)
Theorem create_follows_provider (env : Platform) (bits : option N) :
  create env bits =
  match generateKeyPair env
          match bits with
          | Some b => if b =? 0 then 2048 else b
          | None => 2048
          end 65537 with
  | Ok kp =>
      let pub := pbCrypto.PublicKey.encode
                   {| pbCrypto.Type_ := pbCrypto.RSA;
                      pbCrypto.Data := toDer env (publicKeyToAsn1 env (forge.publicKey kp)) |} in
      let priv := pbCrypto.PrivateKey.encode
                    {| pbCrypto.Type_ := pbCrypto.RSA;
                       pbCrypto.Data :=
                         toDer env (privateKeyToAsn1 env (forge.privateKey kp)) |} in
      Ok {| id := multihashing env pub "sha2-256"; privKey := JBuf priv; pubKey := JBuf pub |}
  | Err e => Err e
  end.
Proof.
  destruct (generateKeyPair env _ 65537) as [pair|e] eqn:E.
  - exact (create_returns env bits pair E).
  - unfold create. now rewrite E.
Qed.

(** X16: a key argument that is [null] or [undefined] makes
    [createFromPubKey] and [createFromPrivKey] throw a TypeError. *)
Theorem key_factories_missing_key (env : Platform) (key : jsval) :
  key = JNull \/ key = JUndefined ->
  createFromPubKey env key = Err TypeError /\ createFromPrivKey env key = Err TypeError.
Proof. intros [-> | ->]; split; reflexivity. Qed.

(** ** The further statements at work on concrete inputs *)

Lemma text_forms_identify_id_witness :
  (toHexString Sample.identity
   = toHexString {| id := id Sample.identity; privKey := JUndefined; pubKey := JUndefined |}
   \/ toB58String Sample.identity
      = toB58String {| id := id Sample.identity; privKey := JUndefined; pubKey := JUndefined |}) /\
  toBytes Sample.identity
  = toBytes {| id := id Sample.identity; privKey := JUndefined; pubKey := JUndefined |}.
Proof.
  split; [left; reflexivity|].
  apply (text_forms_identify_id Sample.identity
           {| id := id Sample.identity; privKey := JUndefined; pubKey := JUndefined |}).
  left. reflexivity.
Defined.

Lemma createFromB58String_canonical_witness :
  createFromB58String "115T" =
  Ok {| id := [x00; x00; x01; x02]; privKey := JUndefined; pubKey := JUndefined |} /\
  toB58String {| id := [x00; x00; x01; x02]; privKey := JUndefined; pubKey := JUndefined |}
  = "115T"%string.
Proof.
  split; [vm_compute; reflexivity|].
  apply (createFromB58String_canonical "115T"
           {| id := [x00; x00; x01; x02]; privKey := JUndefined; pubKey := JUndefined |}).
  vm_compute. reflexivity.
Defined.

Lemma createFromHexString_lowercase_witness :
  Forall (fun c => In c Hex.alphabet) (list_ascii_of_string "1220ab") /\
  Nat.odd (String.length "1220ab") = false /\
  exists I : PeerId,
    createFromHexString (Sample.platform true) "1220ab" = Ok I /\
    toHexString I = "1220ab"%string.
Proof.
  assert (H : Forall (fun c => In c Hex.alphabet) (list_ascii_of_string "1220ab")).
  { repeat constructor; simpl; tauto. }
  split; [exact H|]. split; [reflexivity|].
  apply (createFromHexString_lowercase (Sample.platform true) "1220ab" H). reflexivity.
Defined.

Lemma toJSON_throws_without_keys_witness :
  createFromBytes [x12; x20] =
  Ok {| id := [x12; x20]; privKey := JUndefined; pubKey := JUndefined |} /\
  toJSON {| id := [x12; x20]; privKey := JUndefined; pubKey := JUndefined |} = Err TypeError /\
  toPrint {| id := [x12; x20]; privKey := JUndefined; pubKey := JUndefined |} = Err TypeError.
Proof.
  split; [reflexivity|].
  apply (toJSON_throws_without_keys (Sample.platform false)
           {| id := [x12; x20]; privKey := JUndefined; pubKey := JUndefined |}).
  left. exists [x12; x20]. reflexivity.
Defined.

Lemma key_identity_survives_JSON_witness :
  create (Sample.platform false) None = Ok Sample.created /\
  exists j : JSON.t,
    toJSON Sample.created = Ok j /\
    createFromJSON (Sample.platform false) j = Ok Sample.created.
Proof.
  split; [vm_compute; reflexivity|].
  apply (key_identity_survives_JSON (Sample.platform false) Sample.created).
  left. exists None. vm_compute. reflexivity.
Defined.

Lemma createFromPubKey_reproduces_id_witness :
  create (Sample.platform false) None = Ok Sample.created /\
  createFromPubKey (Sample.platform false) (pubKey Sample.created) =
  Ok {| id := id Sample.created; privKey := JNull; pubKey := pubKey Sample.created |}.
Proof.
  split; [vm_compute; reflexivity|].
  apply (createFromPubKey_reproduces_id (Sample.platform false) Sample.created).
  left. exists None. vm_compute. reflexivity.
Defined.

Lemma createFromPrivKey_after_create_witness :
  Sample.generateKeyPair 2048 65537 =
  Ok {| forge.privateKey := forge.setPrivateKey 33 65537 7 3 11 1 7 2;
        forge.publicKey := forge.setPublicKey 33 65537 |} /\
  Sample.fromDer
    (Sample.toDer (Sample.privateKeyToAsn1 (forge.setPrivateKey 33 65537 7 3 11 1 7 2)))
  = Ok [x30; x21; x01; x07] /\
  Sample.privateKeyFromAsn1 [x30; x21; x01; x07] = Ok (forge.setPrivateKey 33 1 7 0 0 0 0 0) /\
  Sample.publicKeyToAsn1 (forge.setPublicKey 33 1)
  = Sample.publicKeyToAsn1 (forge.setPublicKey 33 65537) /\
  exists I : PeerId,
    create (Sample.platform false) None = Ok I /\
    createFromPrivKey (Sample.platform false) (privKey I) = Ok I.
Proof.
  repeat (split; [vm_compute; reflexivity|]).
  apply (createFromPrivKey_after_create (Sample.platform false) None
           {| forge.privateKey := forge.setPrivateKey 33 65537 7 3 11 1 7 2;
              forge.publicKey := forge.setPublicKey 33 65537 |}
           [x30; x21; x01; x07] (forge.setPrivateKey 33 1 7 0 0 0 0 0));
    vm_compute; reflexivity.
Defined.

Lemma createFromPrivKey_text_or_buffer_witness :
  createFromPrivKey (Sample.platform false)
    (JBuf [x08; x00; x12; x04; x30; x21; x03; x07]) =
  Ok {| id := id Sample.identity;
        privKey := JBuf [x08; x00; x12; x04; x30; x21; x03; x07];
        pubKey := pubKey Sample.identity |} /\
  JBuf [x08; x00; x12; x04; x30; x21; x03; x07]
  = JBuf [x08; x00; x12; x04; x30; x21; x03; x07] /\
  createFromPrivKey (Sample.platform false)
    (JStr (Base64.encode [x08; x00; x12; x04; x30; x21; x03; x07])) =
  Ok {| id := id Sample.identity;
        privKey := JStr (Base64.encode [x08; x00; x12; x04; x30; x21; x03; x07]);
        pubKey := pubKey Sample.identity |}.
Proof.
  split; [vm_compute; reflexivity|].
  apply (createFromPrivKey_text_or_buffer (Sample.platform false)
           [x08; x00; x12; x04; x30; x21; x03; x07]
           {| id := id Sample.identity;
              privKey := JBuf [x08; x00; x12; x04; x30; x21; x03; x07];
              pubKey := pubKey Sample.identity |}).
  vm_compute. reflexivity.
Defined.

Lemma formatKey_other_type_witness :
  "public"%string <> "Public"%string /\ "public"%string <> "Private"%string /\
  keyMarshal [x30] "public" = JUndefined /\
  formatKey (Sample.platform false) [x30] "public" = Err TypeError.
Proof.
  assert (H1 : "public"%string <> "Public"%string) by (apply String.eqb_neq; reflexivity).
  assert (H2 : "public"%string <> "Private"%string) by (apply String.eqb_neq; reflexivity).
  split; [exact H1|]. split; [exact H2|].
  exact (formatKey_other_type (Sample.platform false) [x30] [x30] "public" H1 H2).
Defined.

Lemma formatKey_reads_back_witness :
  ("Private"%string = "Public"%string \/ "Private"%string = "Private"%string) /\
  exists (text : string) (buf : bytes),
    formatKey (Sample.platform false) [x30; x21] "Private" = Ok text /\
    Buffer_new (Sample.platform false) (JStr text) base64 = Ok buf /\
    keyUnmarshal buf = Ok {| pbCrypto.Type_ := pbCrypto.RSA; pbCrypto.Data := [x30; x21] |}.
Proof.
  split; [right; reflexivity|].
  apply (formatKey_reads_back (Sample.platform false) [x30; x21] "Private").
  right. reflexivity.
Defined.

Lemma key_factories_missing_key_witness :
  (JNull = JNull \/ JNull = JUndefined) /\
  createFromPubKey (Sample.platform false) JNull = Err TypeError /\
  createFromPrivKey (Sample.platform false) JNull = Err TypeError.
Proof.
  split; [left; reflexivity|].
  apply (key_factories_missing_key (Sample.platform false) JNull). left. reflexivity.
Defined.
